(** * nbp/main.c: the backplate bridge, embedded and verified

    The bridge sits between the HVAC backplate (behind [struct nbp_device])
    and two ZeroMQ sockets.  Its handlers are embedded as programs in a
    small state-and-failure monad over a [world]: the device structure, the
    file-scope variables of main.c, the messages waiting on the sockets and
    the ordered trace of calls made to the libraries the bridge links with.

    main.c is the only translation unit at hand.  What it calls from
    nest.c, util.h and the generated protobuf code is a field of the class
    [Platform], or is modelled from the specification where that is said.
    The program is taken as built without DEBUG_NBP and with assertions
    on, and [malloc] as succeeding. *)

From Stdlib Require Import ZArith String List Lia Bool Sorted.
From Stdlib.Strings Require Import Byte.
From stdpp Require Import base option list.

Local Open Scope string_scope.
Local Open Scope list_scope.
Local Open Scope Z_scope.

(** ** Plain data *)

Inductive log_level := LOG_INFO | LOG_DEBUG.

Inductive nbp_message_type := NBPM_RESET | NBPM_REQ_PERIODIC.

(** Modelled from the spec: [enum fabd_tristate] is declared in
    freeabode/util.h, which is not at hand; the specification gives it the
    three values true, false and unknown. *)
Inductive fabd_tristate := FTS_FALSE | FTS_TRUE | FTS_UNKNOWN.

(** Modelled from the spec: the values of the enumerators of
    [enum fabd_tristate], which line 162 stores in a boolean field: false
    and true convert to [int] as the booleans do, unknown comes last. *)
Definition tristate_int (a : fabd_tristate) : Z :=
  match a with FTS_FALSE => 0 | FTS_TRUE => 1 | FTS_UNKNOWN => 2 end.

(** A C scalar used as a truth value. *)
Definition truthy (z : Z) : bool := negb (z =? 0).

(** The two sockets of the bridge: [my_zmq_ctl] is the ZMQ_REP socket local
    to [main], [my_zmq_publisher] the file-scope ZMQ_XPUB socket. *)
Inductive socket := my_zmq_ctl | my_zmq_publisher.

#[global] Instance socket_eq_dec : EqDecision socket.
Proof. solve_decision. Defined.

(** The functions of main.c whose addresses are stored in the device
    structure. *)
Inductive handler :=
| reset_complete_fn
| msg_log_fn
| msg_power_status_fn
| msg_weather_fn
| my_nbp_control_fet_cb_fn.

Definition ZMQ_POLLIN : Z := 1.

Definition periodic_req_interval : Z := 30.

(** ** Protobuf messages (freeabode.pb-c.h) *)

Module PbWeather.
Record t := mk {
  has_temperature : bool; temperature : Z;
  has_humidity : bool; humidity : Z }.
Definition INIT : t := mk false 0 false 0.
End PbWeather.

Module PbBattery.
Record t := mk {
  has_charging : bool; charging : bool;
  has_voltage : bool; voltage : Z }.
Definition INIT : t := mk false false false 0.
End PbBattery.

Module PbSetHVACWireRequest.
Record t := mk { wire : Z; connect : bool }.
Definition INIT : t := mk 0 false.
End PbSetHVACWireRequest.

(** A [PbEvent] as the serialiser reads it: the two optional sub-messages
    (a null pointer is [None]) and the [n_wire_change] entries reached
    through the [wire_change] pointer array. *)
Module PbEvent.
Record t := mk {
  weather : option PbWeather.t;
  battery : option PbBattery.t;
  wire_change : list PbSetHVACWireRequest.t }.
Definition INIT : t := mk None None [].
End PbEvent.

Module PbRequest.
Record t := mk { sethvacwire : list PbSetHVACWireRequest.t }.
Definition n_sethvacwire (r : t) : nat := length (sethvacwire r).
End PbRequest.

Module PbRequestReply.
Record t := mk { sethvacwiresuccess : list bool }.
Definition n_sethvacwiresuccess (r : t) : nat := length (sethvacwiresuccess r).
End PbRequestReply.

Inductive pb_message :=
| pb_event (e : PbEvent.t)
| pb_request_reply (r : PbRequestReply.t).

(** ** Calls that leave main.c

    A call is recorded when it is made, with its arguments and, where the
    bridge looks at it, its result. *)

Inductive log_arg := LInt (z : Z) | LStr (s : string).

Inductive call :=
| Applog (lvl : log_level) (fmt : string) (args : list log_arg)
| NbpSend (mtype : nbp_message_type)
| NbpControlFet (fet : Z) (connect : bool) (ok : bool)
| NbpGetFetAsserted (fet : Z)
| NbpRead
| ZmqMsgRecv (s : socket)
| ZmqRecvProtobuf (s : socket)
| ZmqSendProtobuf (s : socket) (m : pb_message)
| ZmqBind (devid name : string) (s : socket) (ok : bool)
| ZmqPoll (timeout_ms : Z).

(** Frames the backplate sends, as the device session hands them to the
    callbacks. *)
Inductive nbp_frame :=
| FrameLog (msg : string)
| FrameWeather (temperature humidity : Z)
| FramePowerStatus (state flags px0 u1 u2 u3 vi_cV vo_mV vb_mV pins wires : Z)
| FrameFetPresence (fet_bitmask : Z).

(** ** Heap blocks

    A block obtained from [malloc] is a list of cells, each one either never
    written ([None]) or holding a value.  A store outside the block, a load
    outside it and a load of a cell never written have no meaning in C: they
    yield [None] here, and the program that does one of them faults. *)

Abbreviation block A := (list (option A)).

Definition malloc {A : Type} (n : nat) : block A := replicate n None.

Definition store {A : Type} (b : block A) (i : nat) (x : A) : option (block A) :=
  if decide (i < length b)%nat then Some (<[i:=Some x]> b) else None.

Definition load {A : Type} (b : block A) (i : nat) : option A :=
  mjoin (b !! i).

(** The first [n] cells of a block, when all of them hold a value. *)
Definition load_range {A : Type} (b : block A) (n : nat) : option (list A) :=
  mapM (load b) (seq 0 n).

(** What the serialiser reads through [wire_change]: [n] pointers, each the
    index of an entry of [mem]. *)
Definition deref_range {A : Type} (ptrs : block nat) (mem : block A) (n : nat)
  : option (list A) :=
  mapM (λ k, p ← load ptrs k; load mem p) (seq 0 n).

(** ** The device structure (nest.h)

    The fields main.c reads and the callback pointers it writes; [P] is the
    part of [struct nbp_device] that main.c never names. *)
Record nbp_device (P : Type) := mk_nbp_device {
  has_weather : bool;
  temperature : Z;
  humidity : Z;
  has_powerinfo : bool;
  power_flags : Z;
  vb_mV : Z;
  cb_msg_fet_presence : option handler;
  cb_msg_log : option handler;
  cb_msg_power_status : option handler;
  cb_msg_weather : option handler;
  cb_asserting_fet_control : option handler;
  nbp_priv : P }.
Arguments mk_nbp_device {P}.
Arguments has_weather {P}.
Arguments temperature {P}.
Arguments humidity {P}.
Arguments has_powerinfo {P}.
Arguments power_flags {P}.
Arguments vb_mV {P}.
Arguments cb_msg_fet_presence {P}.
Arguments cb_msg_log {P}.
Arguments cb_msg_power_status {P}.
Arguments cb_msg_weather {P}.
Arguments cb_asserting_fet_control {P}.
Arguments nbp_priv {P}.

(** ** What main.c takes from the rest of the repository *)
Class Platform := {
  (** [struct timespec] and the helpers of freeabode/util.h that work on
      it; [timespec_passed] also writes its third argument. *)
  timespec : Type;
  timespec_clear : timespec → timespec;
  timespec_add_ms : timespec → Z → timespec;
  timespec_passed : timespec → timespec → timespec → bool * timespec;
  timespec_to_timeout_ms : timespec → timespec → Z;
  (** The enumerator that closes [enum PbHVACWires] in freeabode.pb-c.h.
      An enumerator has type [int], so the loop counter that runs up to it
      does not overflow. *)
  PB_HVACWIRES___COUNT : nat;
  (** The device session of nest.c, as main.c calls it: both sends of
      main.c pass no payload, and the set-wire operation is synchronous and
      answers with a success boolean.  Each is taken whole, as a function
      of the device structure. *)
  nbp_private : Type;
  nbp_send_impl :
    nbp_device nbp_private → nbp_message_type → bool * nbp_device nbp_private;
  nbp_control_fet_impl :
    nbp_device nbp_private → Z → bool → bool * nbp_device nbp_private;
  nbp_get_fet_asserted_impl : nbp_device nbp_private → Z → fabd_tristate;
  (** [fabdcfg_zmq_bind] answers from the configuration and from what was
      bound before; [pb_request__unpack] is the generated decoder. *)
  fabdcfg_zmq_bind_impl : list call → string → string → socket → bool;
  pb_request__unpack : list byte → option PbRequest.t }.

Section Bridge.

Context `{Platform}.

Abbreviation device := (nbp_device nbp_private).

(** ** The world *)

Record world := mk_world {
  nbp : device;
  my_devid : string;
  ts_next_periodic_req : timespec;
  ts_timeout : timespec;
  (** frames the link holds for the next [nbp_read], with the time the
      session stamps on each *)
  device_rx : list (timespec * nbp_frame);
  (** what each socket will hand to the next receive: a message, or
      [None] for a receive that fails *)
  inbox : socket → list (option (list byte));
  trace : list call }.

Definition set_nbp (f : device → device) (w : world) : world :=
  mk_world (f (nbp w)) (my_devid w) (ts_next_periodic_req w) (ts_timeout w)
           (device_rx w) (inbox w) (trace w).

Definition set_ts_next_periodic_req (t : timespec) (w : world) : world :=
  mk_world (nbp w) (my_devid w) t (ts_timeout w)
           (device_rx w) (inbox w) (trace w).

Definition set_ts_timeout (t : timespec) (w : world) : world :=
  mk_world (nbp w) (my_devid w) (ts_next_periodic_req w) t
           (device_rx w) (inbox w) (trace w).

Definition set_device_rx (l : list (timespec * nbp_frame)) (w : world) : world :=
  mk_world (nbp w) (my_devid w) (ts_next_periodic_req w) (ts_timeout w)
           l (inbox w) (trace w).

Definition set_inbox (s : socket) (l : list (option (list byte))) (w : world)
  : world :=
  mk_world (nbp w) (my_devid w) (ts_next_periodic_req w) (ts_timeout w)
           (device_rx w)
           (λ s', if decide (s' = s) then l else inbox w s')
           (trace w).

Definition log_call (c : call) (w : world) : world :=
  mk_world (nbp w) (my_devid w) (ts_next_periodic_req w) (ts_timeout w)
           (device_rx w) (inbox w) (trace w ++ [c]).

(** ** The monad of the handlers

    A handler runs to completion ([Done]) or stops: a failed [assert]
    aborts the process, an access C gives no meaning to is a fault, and a
    receive on a socket with nothing to hand over does not return. *)

Inductive stop := Aborted | Faulted | Blocked.

Inductive outcome (A : Type) :=
| Done (a : A) (w : world)
| Stop (why : stop) (w : world).
Arguments Done {A} a w.
Arguments Stop {A} why w.

Definition M (A : Type) : Type := world → outcome A.

#[global] Instance M_ret : MRet M := λ A a w, Done a w.

#[global] Instance M_bind : MBind M := λ A B f m w,
  match m w with
  | Done a w' => f a w'
  | Stop why w' => Stop why w'
  end.

Definition gets {A : Type} (f : world → A) : M A := λ w, Done (f w) w.
Definition modify (f : world → world) : M unit := λ w, Done tt (f w).
Definition halt {A : Type} (why : stop) : M A := λ w, Stop why w.

(** C's [assert], with the argument already evaluated: the argument's own
    calls are made, then a false value aborts. *)
Definition assert (b : bool) : M unit :=
  if b then mret tt else halt Aborted.

(** A memory access: [None] is an access without meaning. *)
Definition access {A : Type} (o : option A) : M A :=
  match o with Some a => mret a | None => halt Faulted end.

Definition when (b : bool) (m : M unit) : M unit :=
  if b then m else mret tt.

(** [for (i = 0; i < n; ++i) body] is [for_each (seq 0 n) body]: the body
    assigns neither to the counter nor to the bound. *)
Fixpoint for_each {S : Type} (idx : list nat) (body : nat → S → M S) (s : S)
  : M S :=
  match idx with
  | [] => mret s
  | i :: idx' => s' ← body i s; for_each idx' body s'
  end.

(** ** The library calls *)

Definition applog (lvl : log_level) (fmt : string) (args : list log_arg)
  : M unit :=
  modify (log_call (Applog lvl fmt args)).

Definition nbp_send (mtype : nbp_message_type) : M bool := λ w,
  let '(ok, d) := nbp_send_impl (nbp w) mtype in
  Done ok (log_call (NbpSend mtype) (set_nbp (λ _, d) w)).

Definition nbp_control_fet (fet : Z) (connect : bool) : M bool := λ w,
  let '(ok, d) := nbp_control_fet_impl (nbp w) fet connect in
  Done ok (log_call (NbpControlFet fet connect ok) (set_nbp (λ _, d) w)).

Definition nbp_get_fet_asserted (fet : Z) : M fabd_tristate := λ w,
  Done (nbp_get_fet_asserted_impl (nbp w) fet)
       (log_call (NbpGetFetAsserted fet) w).

Definition fabdcfg_zmq_bind (name : string) (s : socket) : M bool := λ w,
  let ok := fabdcfg_zmq_bind_impl (trace w) (my_devid w) name s in
  Done ok (log_call (ZmqBind (my_devid w) name s ok) w).

Definition zmq_send_protobuf (s : socket) (m : pb_message) : M unit :=
  modify (log_call (ZmqSendProtobuf s m)).

(** [zmq_msg_recv] with flags 0: the size of the message received, or -1;
    the message itself is the first component. *)
Definition zmq_msg_recv (s : socket) : M (list byte * Z) := λ w,
  match inbox w s with
  | [] => Stop Blocked w
  | Some data :: rest =>
      Done (data, Z.of_nat (length data))
           (log_call (ZmqMsgRecv s) (set_inbox s rest w))
  | None :: rest =>
      Done ([], -1) (log_call (ZmqMsgRecv s) (set_inbox s rest w))
  end.

(** Modelled from the spec: the macro [zmq_recv_protobuf] of
    freeabode/util.h.  The control channel receives one serialized
    request per cycle and the decoding is opaque: the macro takes one
    message from the socket and leaves the decoded request, a null
    pointer when there is none. *)
Definition zmq_recv_protobuf (s : socket) : M (option PbRequest.t) := λ w,
  match inbox w s with
  | [] => Stop Blocked w
  | Some data :: rest =>
      Done (pb_request__unpack data)
           (log_call (ZmqRecvProtobuf s) (set_inbox s rest w))
  | None :: rest =>
      Done None (log_call (ZmqRecvProtobuf s) (set_inbox s rest w))
  end.

(** ** main.c *)

(** Lines 21-29, without DEBUG_NBP. *)
Definition request_periodic (now : timespec) : M unit :=
  modify (set_ts_next_periodic_req
            (timespec_add_ms now (periodic_req_interval * 1000)));;
  _ ← nbp_send NBPM_REQ_PERIODIC;
  mret tt.

(** Line 43: [nbp->cb_msg_fet_presence = NULL]. *)
Definition clear_cb_msg_fet_presence (d : device) : device :=
  mk_nbp_device (has_weather d) (temperature d) (humidity d)
                (has_powerinfo d) (power_flags d) (vb_mV d)
                None (cb_msg_log d) (cb_msg_power_status d)
                (cb_msg_weather d) (cb_asserting_fet_control d)
                (nbp_priv d).

(** Lines 40-49. *)
Definition reset_complete (now : timespec) (fet_bitmask : Z) : M unit :=
  modify (set_nbp clear_cb_msg_fet_presence);;
  applog LOG_INFO "Backplate reset complete" [];;
  request_periodic now;;
  bound ← fabdcfg_zmq_bind "events" my_zmq_publisher;
  assert bound.

(** Lines 51-54. *)
Definition msg_log (now : timespec) (msg : string) : M unit :=
  applog LOG_INFO "Backplate: %s" [LStr msg].

(** Lines 56-69.  [temperature] and [humidity] are [uint16_t]: the
    [int32_t] product stays far from the bounds of its type, and division
    and remainder are C's, truncating. *)
Definition msg_weather (now : timespec) (temperature humidity : Z) : M unit :=
  let fahrenheit := Z.quot (temperature * 90) 5 + 32000 in
  applog LOG_INFO
    "Temperature %3d.%02d C (%4d.%03d F)    Humidity: %d.%d%%"
    [LInt (Z.quot temperature 100); LInt (Z.rem temperature 100);
     LInt (Z.quot fahrenheit 1000); LInt (Z.rem fahrenheit 1000);
     LInt (Z.quot humidity 10); LInt (Z.rem humidity 10)];;
  let pb := PbWeather.mk true temperature true humidity in
  let pbe := PbEvent.mk (Some pb) None [] in
  zmq_send_protobuf my_zmq_publisher (pb_event pbe).

(** Lines 71-85. *)
Definition msg_power_status (now : timespec)
    (state flags px0 u1 u2 u3 vi_cV vo_mV vb_mV pins wires : Z) : M unit :=
  applog LOG_INFO
    "power status: flags %02x, vi %d.%02dV, vo %d.%03dV; vb %d.%03dV"
    [LInt flags;
     LInt (Z.quot vi_cV 100); LInt (Z.rem vi_cV 100);
     LInt (Z.quot vo_mV 1000); LInt (Z.rem vo_mV 1000);
     LInt (Z.quot vb_mV 1000); LInt (Z.rem vb_mV 1000)];;
  let pbbattery :=
    PbBattery.mk true (negb (truthy (Z.land flags 0x40))) true vb_mV in
  let pbevent := PbEvent.mk None (Some pbbattery) [] in
  zmq_send_protobuf my_zmq_publisher (pb_event pbevent).

(** Lines 87-100: one pointer cell, holding the address of the local
    [pbwire]. *)
Definition my_nbp_control_fet_cb (fet : Z) (connect : bool) : M unit :=
  applog LOG_INFO "Setting FET %u to %d"
         [LInt fet; LInt (if connect then 1 else 0)];;
  let pbwire := PbSetHVACWireRequest.mk fet connect in
  wire_change ← access (store (malloc 1) 0%nat 0%nat);
  changes ← access (deref_range wire_change [Some pbwire] 1);
  zmq_send_protobuf my_zmq_publisher
                    (pb_event (PbEvent.mk None None changes)).

(** Line 110, for one value of the counter. *)
Definition set_wire_item (req : PbRequest.t) (i : nat) (success : block bool)
  : M (block bool) :=
  item ← access (PbRequest.sethvacwire req !! i);
  ok ← nbp_control_fet (PbSetHVACWireRequest.wire item)
                       (PbSetHVACWireRequest.connect item);
  access (store success i ok).

(** Lines 102-114.  A request that did not decode leaves a null [req],
    and line 107 reads through it. *)
Definition handle_req (s : socket) : M unit :=
  req ← zmq_recv_protobuf s;
  req ← access req;
  let n_sethvacwiresuccess := PbRequest.n_sethvacwire req in
  let sethvacwiresuccess : block bool := malloc n_sethvacwiresuccess in
  sethvacwiresuccess ←
    for_each (seq 0 (PbRequest.n_sethvacwire req)) (set_wire_item req)
             sethvacwiresuccess;
  packed ← access (load_range sethvacwiresuccess n_sethvacwiresuccess);
  zmq_send_protobuf s (pb_request_reply (PbRequestReply.mk packed)).

(** The locals of [got_new_subscriber] that the loop of lines 154-166
    works on: the block of entries with the cursor [pbwire] into it, and
    the block of pointers with the count [n_wire_change]. *)
Record wire_bufs := mk_wire_bufs {
  pbwire_top : block PbSetHVACWireRequest.t;
  pbwire : nat;
  wire_change : block nat;
  n_wire_change : nat }.

(** Lines 156-165, for one value of the counter. *)
Definition wire_step (i : nat) (b : wire_bufs) : M wire_bufs :=
  asserted ← nbp_get_fet_asserted (Z.of_nat i);
  match asserted with
  | FTS_UNKNOWN => mret b
  | _ =>
      entries ← access (store (pbwire_top b) (pbwire b)
                              PbSetHVACWireRequest.INIT);
      entries ← access (store entries (pbwire b)
                  (PbSetHVACWireRequest.mk (Z.of_nat i)
                                           (truthy (tristate_int asserted))));
      pointers ← access (store (wire_change b) (n_wire_change b) (pbwire b));
      mret (mk_wire_bufs entries (S (pbwire b)) pointers (S (n_wire_change b)))
  end.

(** Lines 128-168: the event built for a subscriber. *)
Definition send_snapshot : M unit :=
  d ← gets nbp;
  let weather :=
    if has_weather d
    then Some (PbWeather.mk true (temperature d) true (humidity d))
    else None in
  let battery :=
    if has_powerinfo d
    then Some (PbBattery.mk true (negb (truthy (Z.land (power_flags d) 0x40)))
                            true (vb_mV d))
    else None in
  b ← for_each (seq 0 PB_HVACWIRES___COUNT) wire_step
         (mk_wire_bufs (malloc PB_HVACWIRES___COUNT) 0
                       (malloc PB_HVACWIRES___COUNT) 0);
  changes ← access (deref_range (wire_change b) (pbwire_top b)
                                (n_wire_change b));
  zmq_send_protobuf my_zmq_publisher
                    (pb_event (PbEvent.mk weather battery changes)).

(** Lines 116-175. *)
Definition got_new_subscriber (s : socket) : M unit :=
  '(data, rc) ← zmq_msg_recv s;
  assert (0 <=? rc);;
  if bool_decide (length data < 1)%nat then mret tt
  else
    match data with
    | [] => halt Faulted
    | data0 :: _ =>
        if Byte.eqb data0 x00 then mret tt else send_snapshot
    end.

(** ** The device session's read (nest.c, not at hand) *)

(** Modelled from the spec: the session keeps the last-known temperature
    and humidity in the device structure, a reading being fully present
    once seen.  main.c only reads these fields (lines 131-136). *)
Definition record_weather (t h : Z) (d : device) : device :=
  mk_nbp_device true t h (has_powerinfo d) (power_flags d) (vb_mV d)
                (cb_msg_fet_presence d) (cb_msg_log d)
                (cb_msg_power_status d) (cb_msg_weather d)
                (cb_asserting_fet_control d) (nbp_priv d).

(** Modelled from the spec: the session keeps the last-known power flags
    and battery voltage in the device structure.  main.c only reads these
    fields (lines 141-146). *)
Definition record_power (flags vb : Z) (d : device) : device :=
  mk_nbp_device (has_weather d) (temperature d) (humidity d) true flags vb
                (cb_msg_fet_presence d) (cb_msg_log d)
                (cb_msg_power_status d) (cb_msg_weather d)
                (cb_asserting_fet_control d) (nbp_priv d).

(** Modelled from the spec: the session invokes the registered callbacks.
    A call through a callback pointer runs the function the pointer names;
    a null pointer is not called, and a function of another signature is
    not callable there. *)
Definition invoke (cb : option handler) (expected : handler) (run : M unit)
  : M unit :=
  match cb with
  | None => mret tt
  | Some h =>
      match h, expected with
      | reset_complete_fn, reset_complete_fn
      | msg_log_fn, msg_log_fn
      | msg_power_status_fn, msg_power_status_fn
      | msg_weather_fn, msg_weather_fn
      | my_nbp_control_fet_cb_fn, my_nbp_control_fet_cb_fn => run
      | _, _ => halt Faulted
      end
  end.

(** Modelled from the spec: what the session does with one frame.  It
    stores a reading before it invokes the callback for it (main.c stores
    none), and hands every callback the time of the frame. *)
Definition deliver (now : timespec) (f : nbp_frame) : M unit :=
  match f with
  | FrameLog msg =>
      cb ← gets (λ w, cb_msg_log (nbp w));
      invoke cb msg_log_fn (msg_log now msg)
  | FrameWeather t h =>
      modify (set_nbp (record_weather t h));;
      cb ← gets (λ w, cb_msg_weather (nbp w));
      invoke cb msg_weather_fn (msg_weather now t h)
  | FramePowerStatus state flags px0 u1 u2 u3 vi_cV vo_mV vb_mV pins wires =>
      modify (set_nbp (record_power flags vb_mV));;
      cb ← gets (λ w, cb_msg_power_status (nbp w));
      invoke cb msg_power_status_fn
             (msg_power_status now state flags px0 u1 u2 u3
                               vi_cV vo_mV vb_mV pins wires)
  | FrameFetPresence fet_bitmask =>
      cb ← gets (λ w, cb_msg_fet_presence (nbp w));
      invoke cb reset_complete_fn (reset_complete now fet_bitmask)
  end.

(** Modelled from the spec: the frames are handled in the order they came. *)
Fixpoint deliver_all (frames : list (timespec * nbp_frame)) : M unit :=
  match frames with
  | [] => mret tt
  | (now, f) :: rest => deliver now f;; deliver_all rest
  end.

(** Modelled from the spec: [nbp_read] of nest.c drains the framed input
    and invokes zero or more of the registered callbacks. *)
Definition nbp_read : M unit :=
  modify (log_call NbpRead);;
  frames ← gets device_rx;
  modify (set_device_rx []);;
  deliver_all frames.

(** ** [main]

    Lines 185-207, from the device opened: the reset is sent, the
    callbacks are registered, the control socket is bound and the
    publisher is left unbound; the deadline is cleared.  Creating the
    context and the sockets and securing them is configuration. *)
Definition main_setup : M unit :=
  sent ← nbp_send NBPM_RESET;
  assert sent;;
  modify (set_nbp (λ d,
    mk_nbp_device (has_weather d) (temperature d) (humidity d)
                  (has_powerinfo d) (power_flags d) (vb_mV d)
                  (Some reset_complete_fn) (Some msg_log_fn)
                  (Some msg_power_status_fn) (Some msg_weather_fn)
                  (Some my_nbp_control_fet_cb_fn) (nbp_priv d)));;
  bound ← fabdcfg_zmq_bind "control" my_zmq_ctl;
  assert bound;;
  ts ← gets ts_next_periodic_req;
  modify (set_ts_next_periodic_req (timespec_clear ts)).

(** What one turn of the loop takes from outside: the clock reading and
    what [zmq_poll] returns and leaves in [pollitems]. *)
Record cycle := mk_cycle {
  clock : timespec;
  poll_rc : Z;
  revents0 : Z;
  revents1 : Z;
  revents2 : Z }.

(** Lines 217-220: the part of a turn before [zmq_poll]. *)
Definition before_poll (c : cycle) : M unit :=
  tmo ← gets ts_timeout;
  modify (set_ts_timeout (timespec_clear tmo));;
  let ts_now := clock c in
  deadline ← gets ts_next_periodic_req;
  tmo ← gets ts_timeout;
  let '(passed, tmo') := timespec_passed deadline ts_now tmo in
  modify (set_ts_timeout tmo');;
  when passed (request_periodic ts_now).

(** Lines 223-228: the dispatch after a poll that found something. *)
Definition dispatch (c : cycle) : M unit :=
  when (truthy (Z.land (revents0 c) ZMQ_POLLIN)) nbp_read;;
  when (truthy (Z.land (revents1 c) ZMQ_POLLIN)) (handle_req my_zmq_ctl);;
  when (truthy (Z.land (revents2 c) ZMQ_POLLIN))
       (got_new_subscriber my_zmq_publisher).

(** Lines 217-228: one turn of [while (true)]. *)
Definition main_turn (c : cycle) : M unit :=
  before_poll c;;
  tmo ← gets ts_timeout;
  modify (log_call (ZmqPoll (timespec_to_timeout_ms (clock c) tmo)));;
  if poll_rc c <=? 0 then mret tt
  else dispatch c.

(** The loop, for as many turns as there are cycles. *)
Fixpoint main_loop (cycles : list cycle) : M unit :=
  match cycles with
  | [] => mret tt
  | c :: rest => main_turn c;; main_loop rest
  end.

End Bridge.

Arguments Done {_ _} a w.
Arguments Stop {_ _} why w.

(** The world an outcome ends in. *)
Definition outcome_world `{Platform} {A : Type} (o : outcome A) : world :=
  match o with Done _ w => w | Stop _ w => w end.

(** A program that only ever adds calls to the trace. *)
Definition grows `{Platform} {A : Type} (m : M A) : Prop :=
  ∀ w : world, ∃ tr : list call, trace (outcome_world (m w)) = trace w ++ tr.

(** The device session leaves the fet-presence callback pointer as main.c
    set it. *)
Definition session_keeps_callback `{Platform} : Prop :=
  (∀ (d : nbp_device nbp_private) (m : nbp_message_type),
     cb_msg_fet_presence (nbp_send_impl d m).2 = cb_msg_fet_presence d)
  ∧ (∀ (d : nbp_device nbp_private) (fet : Z) (connect : bool),
       cb_msg_fet_presence (nbp_control_fet_impl d fet connect).2
       = cb_msg_fet_presence d).

(** A call that binds an endpoint. *)
Definition is_bind (c : call) : bool :=
  match c with ZmqBind _ _ _ _ => true | _ => false end.

(** A program that, run with the fet-presence callback cleared, leaves it
    cleared and binds no endpoint. *)
Definition settled `{Platform} {A : Type} (m : M A) : Prop :=
  ∀ w : world,
    cb_msg_fet_presence (nbp w) = None →
    cb_msg_fet_presence (nbp (outcome_world (m w))) = None
    ∧ ∃ tr : list call,
        trace (outcome_world (m w)) = trace w ++ tr
        ∧ Forall (λ c, is_bind c = false) tr.

(** ** What the words of the specification mean on a trace *)

(** The device session setting the wires of a list of items one after the
    other, from the first: the result of each and the device left. *)
Fixpoint set_wires `{Platform} (items : list PbSetHVACWireRequest.t)
    (d : nbp_device nbp_private) : list bool * nbp_device nbp_private :=
  match items with
  | [] => ([], d)
  | item :: rest =>
      let '(ok, d') :=
        nbp_control_fet_impl d (PbSetHVACWireRequest.wire item)
                             (PbSetHVACWireRequest.connect item) in
      let '(oks, d'') := set_wires rest d' in
      (ok :: oks, d'')
  end.

(** The wire-change entry the specification gives a wire: none while its
    asserted state is unknown, otherwise its id with the asserted value. *)
Definition wire_entry `{Platform} (d : nbp_device nbp_private) (i : nat)
  : option PbSetHVACWireRequest.t :=
  match nbp_get_fet_asserted_impl d (Z.of_nat i) with
  | FTS_UNKNOWN => None
  | FTS_TRUE => Some (PbSetHVACWireRequest.mk (Z.of_nat i) true)
  | FTS_FALSE => Some (PbSetHVACWireRequest.mk (Z.of_nat i) false)
  end.

(** The full-state event of the specification: the weather reading when
    there is one, the power reading when there is one, and the entries of
    the wires from 0 up. *)
Definition snapshot_event `{Platform} (d : nbp_device nbp_private) : PbEvent.t :=
  PbEvent.mk
    (if has_weather d
     then Some (PbWeather.mk true (temperature d) true (humidity d))
     else None)
    (if has_powerinfo d
     then Some (PbBattery.mk true (negb (Z.testbit (power_flags d) 6))
                             true (vb_mV d))
     else None)
    (omap (wire_entry d) (seq 0 PB_HVACWIRES___COUNT)).

(** The buffers of the snapshot loop once [entries] have been written, with
    [k] cells left in each block: the cursor and the count both stand at
    the number of entries, and the i-th pointer is the i-th entry. *)
Definition bufs_with (entries : list PbSetHVACWireRequest.t) (k : nat)
  : wire_bufs :=
  mk_wire_bufs ((Some <$> entries) ++ replicate k None) (length entries)
               ((Some <$> seq 0 (length entries)) ++ replicate k None)
               (length entries).

(** DeviceState holds a weather reading, and a power reading. *)
Definition holds_weather {P : Type} (d : nbp_device P) (t h : Z) : Prop :=
  has_weather d = true ∧ temperature d = t ∧ humidity d = h.

Definition holds_power {P : Type} (d : nbp_device P) (flags vb : Z) : Prop :=
  has_powerinfo d = true ∧ power_flags d = flags ∧ vb_mV d = vb.

(** The frames of a sequence of weather readings (time, temperature,
    humidity). *)
Definition weather_frames {T : Type} (readings : list (T * (Z * Z)))
  : list (T * nbp_frame) :=
  (λ r, (r.1, FrameWeather r.2.1 r.2.2)) <$> readings.

(** The log lines of the two telemetry handlers. *)
Definition weather_log (temperature humidity : Z) : call :=
  Applog LOG_INFO "Temperature %3d.%02d C (%4d.%03d F)    Humidity: %d.%d%%"
    [LInt (Z.quot temperature 100); LInt (Z.rem temperature 100);
     LInt (Z.quot (Z.quot (temperature * 90) 5 + 32000) 1000);
     LInt (Z.rem (Z.quot (temperature * 90) 5 + 32000) 1000);
     LInt (Z.quot humidity 10); LInt (Z.rem humidity 10)].

Definition power_log (flags vi_cV vo_mV vb_mV : Z) : call :=
  Applog LOG_INFO
    "power status: flags %02x, vi %d.%02dV, vo %d.%03dV; vb %d.%03dV"
    [LInt flags;
     LInt (Z.quot vi_cV 100); LInt (Z.rem vi_cV 100);
     LInt (Z.quot vo_mV 1000); LInt (Z.rem vo_mV 1000);
     LInt (Z.quot vb_mV 1000); LInt (Z.rem vb_mV 1000)].

(** An event that carries a weather record only, a battery record only. *)
Definition weather_only (t h : Z) : PbEvent.t :=
  PbEvent.mk (Some (PbWeather.mk true t true h)) None [].

Definition battery_only (charging : bool) (voltage : Z) : PbEvent.t :=
  PbEvent.mk None (Some (PbBattery.mk true charging true voltage)) [].

(** The queries of the asserted state made for some wire ids. *)
Definition fet_queries (idx : list nat) : list call :=
  (λ i, NbpGetFetAsserted (Z.of_nat i)) <$> idx.

(** The set-wire call made for an item, with its result. *)
Definition set_wire_call (item : PbSetHVACWireRequest.t) (ok : bool) : call :=
  NbpControlFet (PbSetHVACWireRequest.wire item)
                (PbSetHVACWireRequest.connect item) ok.

(** The periodic-refresh messages among some calls. *)
Definition is_refresh (c : call) : bool :=
  match c with NbpSend NBPM_REQ_PERIODIC => true | _ => false end.

Definition refreshes (tr : list call) : nat := length (filter is_refresh tr).

(** The events published among some calls. *)
Definition published (tr : list call) : list PbEvent.t :=
  omap (λ c, match c with
             | ZmqSendProtobuf my_zmq_publisher (pb_event e) => Some e
             | _ => None
             end) tr.

(** A call that neither sends to the device nor binds an endpoint. *)
Definition quiet (c : call) : bool :=
  match c with NbpSend _ | ZmqBind _ _ _ _ => false | _ => true end.

(** A call by which a handler takes its input: none of them in a turn means
    no handler was dispatched. *)
Definition is_intake (c : call) : bool :=
  match c with NbpRead | ZmqMsgRecv _ | ZmqRecvProtobuf _ => true | _ => false end.

(** Bit 6 of the power flags is clear. *)
Definition bit6_clear (flags : Z) : bool := negb (Z.testbit flags 6).

(** ** Further vocabulary, for the rest of main.c *)

(** A call by which a callback reports: a log line, or an event on the
    publisher. *)
Definition is_report (c : call) : bool :=
  match c with
  | Applog _ _ _ | ZmqSendProtobuf my_zmq_publisher (pb_event _) => true
  | _ => false
  end.

(** A handler that always completes, makes only reporting calls, and leaves
    everything else in the world as it found it. *)
Definition only_reports `{Platform} (m : M unit) : Prop :=
  ∀ w : world,
    ∃ tr : list call,
      m w = Done tt (mk_world (nbp w) (my_devid w) (ts_next_periodic_req w)
                              (ts_timeout w) (device_rx w) (inbox w)
                              (trace w ++ tr))
      ∧ Forall (λ c, is_report c = true) tr.

(** A fet-presence frame, and a run of frames without one. *)
Definition is_presence (f : nbp_frame) : bool :=
  match f with FrameFetPresence _ => true | _ => false end.

Definition no_presence {T : Type} (frames : list (T * nbp_frame)) : Prop :=
  Forall (λ r, is_presence r.2 = false) frames.

(** A program that keeps the property [I] of the world and adds only calls
    that satisfy [P]. *)
Definition keeps `{Platform} {A : Type} (I : world → Prop) (P : call → Prop)
    (m : M A) : Prop :=
  ∀ w : world,
    I w →
    I (outcome_world (m w))
    ∧ ∃ tr : list call,
        trace (outcome_world (m w)) = trace w ++ tr ∧ Forall P tr.

(** What reaches the bridge from outside between two turns of the loop:
    frames on the link and messages, or failing receives, on the two
    sockets, queued behind what is already waiting. *)
Record arrival `{Platform} := mk_arrival {
  on_link : list (timespec * nbp_frame);
  on_ctl : list (option (list byte));
  on_publisher : list (option (list byte)) }.
Arguments mk_arrival {_} on_link on_ctl on_publisher.

Definition arrive `{Platform} (a : arrival) (w : world) : world :=
  mk_world (nbp w) (my_devid w) (ts_next_periodic_req w) (ts_timeout w)
           (device_rx w ++ on_link a)
           (λ s, inbox w s ++ match s with
                              | my_zmq_ctl => on_ctl a
                              | my_zmq_publisher => on_publisher a
                              end)
           (trace w).

(** The loop of lines 215-229 with its input: before each turn, what
    arrived since the turn before. *)
Fixpoint main_loop_fed `{Platform} (feed : list (arrival * cycle)) : M unit :=
  match feed with
  | [] => mret tt
  | (a, c) :: rest => modify (arrive a);; main_turn c;; main_loop_fed rest
  end.

(** The binds among some calls. *)
Definition binds (tr : list call) : nat := length (filter is_bind tr).

(** A program during which the fet-presence callback pointer either stays
    as it is, with nothing bound, or goes from [reset_complete] to null,
    with one bind. *)
Definition once `{Platform} {A : Type} (m : M A) : Prop :=
  ∀ w : world,
    ∃ tr : list call,
      trace (outcome_world (m w)) = trace w ++ tr
      ∧ ((cb_msg_fet_presence (nbp (outcome_world (m w)))
          = cb_msg_fet_presence (nbp w)
          ∧ binds tr = 0%nat)
         ∨ (cb_msg_fet_presence (nbp w) = Some reset_complete_fn
            ∧ cb_msg_fet_presence (nbp (outcome_world (m w))) = None
            ∧ binds tr = 1%nat)).

(** No fet-presence frame is waiting on the link. *)
Definition link_without_presence `{Platform} (w : world) : Prop :=
  no_presence (device_rx w).

(** A call that binds no endpoint. *)
Definition binds_nothing (c : call) : Prop := is_bind c = false.

(** ** A platform to run the bridge on

    Time is a count of milliseconds and a cleared time is negative; the
    session keeps the asserted state of twelve wires and a list of wires it
    cannot set; a request is decoded from pairs of bytes. *)
Module Sim.

Record session := mk_session {
  asserted : list fabd_tristate;
  stuck : list Z }.

Definition dev := nbp_device session.

Definition with_session (d : dev) (p : session) : dev :=
  mk_nbp_device (has_weather d) (temperature d) (humidity d)
                (has_powerinfo d) (power_flags d) (vb_mV d)
                (cb_msg_fet_presence d) (cb_msg_log d)
                (cb_msg_power_status d) (cb_msg_weather d)
                (cb_asserting_fet_control d) p.

Definition passed (deadline now tmo : Z) : bool * Z :=
  if (0 <=? deadline) && (deadline <=? now) then (true, tmo)
  else if 0 <=? deadline then (false, deadline)
  else (false, tmo).

Definition to_timeout_ms (now tmo : Z) : Z :=
  if tmo <? 0 then -1 else Z.max 0 (tmo - now).

Definition control_fet (d : dev) (fet : Z) (connect : bool) : bool * dev :=
  if bool_decide (fet ∈ stuck (nbp_priv d)) then (false, d)
  else (true,
        with_session d
          (mk_session (<[Z.to_nat fet := if connect then FTS_TRUE else FTS_FALSE]>
                         (asserted (nbp_priv d)))
                      (stuck (nbp_priv d)))).

Definition get_fet_asserted (d : dev) (fet : Z) : fabd_tristate :=
  default FTS_UNKNOWN (asserted (nbp_priv d) !! Z.to_nat fet).

Fixpoint unpack (data : list byte) : option (list PbSetHVACWireRequest.t) :=
  match data with
  | [] => Some []
  | w :: c :: rest =>
      items ← unpack rest;
      Some (PbSetHVACWireRequest.mk (Z.of_N (Byte.to_N w))
                                    (negb (Byte.eqb c x00)) :: items)
  | _ => None
  end.

#[export] Instance platform : Platform := {|
  timespec := Z;
  timespec_clear := λ _, -1;
  timespec_add_ms := λ t ms, t + ms;
  timespec_passed := passed;
  timespec_to_timeout_ms := to_timeout_ms;
  PB_HVACWIRES___COUNT := 12;
  nbp_private := session;
  nbp_send_impl := λ d _, (true, d);
  nbp_control_fet_impl := control_fet;
  nbp_get_fet_asserted_impl := get_fet_asserted;
  fabdcfg_zmq_bind_impl := λ _ _ _ _, true;
  pb_request__unpack := λ data, PbRequest.mk <$> unpack data |}.

(** The device just opened: nothing read yet, no callback registered,
    every wire unknown, wire 5 stuck. *)
Definition fresh_device : dev :=
  mk_nbp_device false 0 0 false 0 0 None None None None None
                (mk_session (replicate 12 FTS_UNKNOWN) [5]).

Definition no_mail : socket → list (option (list byte)) := λ _, [].

(** A turn at time 1000 in which only the device link is readable. *)
Definition link_turn : cycle := mk_cycle 1000 1 ZMQ_POLLIN 0 0.

(** A turn at time 1000 in which the poll times out. *)
Definition idle_turn : cycle := mk_cycle 1000 0 0 0 0.

Definition boot : world :=
  mk_world fresh_device "nbp" 0 0 [] no_mail [].

(** The world [main] enters its loop in. *)
Definition ready : world := outcome_world (main_setup boot).

(** The same with the backplate's answer to the reset waiting on the
    link. *)
Definition reset_pending : world :=
  set_device_rx [(1000, FrameFetPresence 3)] ready.

(** The same once that turn has run: the reset is confirmed and the
    deadline stands at 31000. *)
Definition running : world :=
  outcome_world (main_turn link_turn reset_pending).

(** A turn at time 40000, past that deadline, in which the poll times
    out. *)
Definition late_turn : cycle := mk_cycle 40000 0 0 0 0.

(** The request of the specification's scenario, connect wire 2 and
    disconnect wire 5, waiting on the control socket. *)
Definition request_bytes : list byte := ["002"; "001"; "005"; "000"]%byte.

Definition request : PbRequest.t :=
  PbRequest.mk [PbSetHVACWireRequest.mk 2 true;
                PbSetHVACWireRequest.mk 5 false].

Definition request_pending : world :=
  set_inbox my_zmq_ctl [Some request_bytes] ready.

(** Wire 0 asserted, wire 2 released, the others unknown, and a
    subscription waiting on the publisher. *)
Definition subscriber_pending : world :=
  set_inbox my_zmq_publisher [Some [x01]]
    (set_nbp (λ d, with_session d
                     (mk_session (<[0%nat := FTS_TRUE]>
                                    (<[2%nat := FTS_FALSE]>
                                       (asserted (nbp_priv d))))
                                 (stuck (nbp_priv d))))
             ready).

(** Two weather readings, the later one 21.50 C and 45.5 %. *)
Definition two_readings : list (Z * (Z * Z)) :=
  [(1000, (2000, 400)); (2000, (2150, 455))].

(** A receive about to fail on the publisher. *)
Definition recv_failing : world :=
  set_inbox my_zmq_publisher [None] ready.

(** Three bytes on the control socket: not a request. *)
Definition garbled_bytes : list byte := ["002"; "001"; "005"]%byte.

Definition garbled_pending : world :=
  set_inbox my_zmq_ctl [Some garbled_bytes] ready.

(** Before the reset is confirmed, weather frames on the link. *)
Definition telemetry_pending : world :=
  set_device_rx (weather_frames two_readings) ready.

(** Weather frames on the link and a subscription on the publisher, and a
    turn in which both are found ready. *)
Definition busy : world :=
  set_device_rx (weather_frames two_readings) subscriber_pending.


(** A turn in which the poll reports one item, with flags other than
    ZMQ_POLLIN. *)
Definition flagged_turn : cycle := mk_cycle 3000 1 4 2 0.

(** What arrives while the reset is awaited: a request and a subscription,
    found ready together with the weather frames already on the link. *)
Definition waiting_feed : list (arrival * cycle) :=
  [(mk_arrival [] [Some request_bytes] [Some [x01]],
    mk_cycle 3000 3 ZMQ_POLLIN ZMQ_POLLIN ZMQ_POLLIN)].

(** The backplate reporting its reset twice, in two turns. *)
Definition reset_twice_feed : list (arrival * cycle) :=
  [(mk_arrival [(1000, FrameFetPresence 3)] [] [], link_turn);
   (mk_arrival [(2000, FrameFetPresence 3)] [] [], link_turn)].

(** A subscription with topic bytes behind the first byte. *)
Definition topic_pending : world :=
  set_inbox my_zmq_publisher [Some ["001"; "119"; "120"]%byte]
            subscriber_pending.

End Sim.

(** * Properties *)

Section Properties.

Context `{Platform}.

Abbreviation device := (nbp_device nbp_private).

(** ** Running the monad *)

(** Unfold the plumbing of a straight-line handler. *)
Ltac run :=
  unfold mbind, M_bind, mret, M_ret, applog, zmq_send_protobuf, modify, gets,
         halt, when;
  cbn [outcome_world].

Lemma bind_done {A B : Type} (m : M A) (f : A → M B) (w w' : world) (a : A) :
  m w = Done a w' → (m ≫= f) w = f a w'.
Proof. intros Hm. unfold mbind, M_bind. by rewrite Hm. Qed.

Lemma bind_stop {A B : Type} (m : M A) (f : A → M B) (w w' : world) why :
  m w = Stop why w' → (m ≫= f) w = Stop why w'.
Proof. intros Hm. unfold mbind, M_bind. by rewrite Hm. Qed.

Lemma for_each_app {S : Type} (l1 l2 : list nat) (body : nat → S → M S)
    (s s1 : S) (w w1 : world) :
  for_each l1 body s w = Done s1 w1 →
  for_each (l1 ++ l2) body s w = for_each l2 body s1 w1.
Proof.
  revert s w. induction l1 as [|i l1 IH]; intros s w; simpl.
  - unfold mret, M_ret. by intros [= -> ->].
  - unfold mbind, M_bind. destruct (body i s w) as [s' w'|]; [|done].
    apply IH.
Qed.

(** ** Heap blocks *)

Lemma load_filled {A : Type} (l : list A) (rest : block A) (i : nat) (x : A) :
  l !! i = Some x → load ((Some <$> l) ++ rest) i = Some x.
Proof.
  intros Hi. unfold load.
  rewrite lookup_app_l.
  - by rewrite list_lookup_fmap, Hi.
  - rewrite length_fmap. by eapply lookup_lt_Some.
Qed.

Lemma load_range_filled {A : Type} (l : list A) :
  load_range (Some <$> l) (length l) = Some l.
Proof.
  unfold load_range. apply mapM_Some_2.
  apply Forall2_same_length_lookup_2.
  - by rewrite length_seq.
  - intros i k x Hk Hx.
    apply lookup_seq in Hk as [-> _]. simpl.
    rewrite <- (app_nil_r (Some <$> l)). by apply load_filled.
Qed.

Lemma store_next {A : Type} (l : list A) (n : nat) (x : A) :
  store ((Some <$> l) ++ replicate (S n) None) (length l) x
  = Some ((Some <$> (l ++ [x])) ++ replicate n None).
Proof.
  unfold store. rewrite decide_True.
  - f_equal. rewrite insert_app_r_alt by (rewrite length_fmap; lia).
    rewrite length_fmap, Nat.sub_diag, fmap_app. simpl.
    by rewrite <- app_assoc.
  - rewrite length_app, length_fmap, length_replicate. lia.
Qed.

(** ** The control request handler *)

Lemma set_wires_length (items : list PbSetHVACWireRequest.t) (d : device) :
  length (set_wires items d).1 = length items.
Proof.
  revert d. induction items as [|item items IH]; intros d; simpl; [done|].
  destruct (nbp_control_fet_impl _ _ _) as [ok d'].
  specialize (IH d'). destruct (set_wires items d') as [oks d'']. simpl in *.
  by rewrite IH.
Qed.

Lemma set_wires_app (l1 l2 : list PbSetHVACWireRequest.t) (d : device) :
  set_wires (l1 ++ l2) d
  = ((set_wires l1 d).1 ++ (set_wires l2 (set_wires l1 d).2).1,
     (set_wires l2 (set_wires l1 d).2).2).
Proof.
  revert d. induction l1 as [|item l1 IH]; intros d; simpl.
  - by destruct (set_wires l2 d).
  - destruct (nbp_control_fet_impl _ _ _) as [ok d'].
    rewrite IH. by destruct (set_wires l1 d').
Qed.

(** The result at one index is what the session answers for that item on
    the device the earlier items left. *)
Lemma set_wires_lookup (items : list PbSetHVACWireRequest.t) (d : device)
    (i : nat) (item : PbSetHVACWireRequest.t) :
  items !! i = Some item →
  (set_wires items d).1 !! i
  = Some (nbp_control_fet_impl (set_wires (take i items) d).2
            (PbSetHVACWireRequest.wire item)
            (PbSetHVACWireRequest.connect item)).1.
Proof.
  intros Hi.
  rewrite <- (take_drop_middle items i item Hi) at 1.
  rewrite set_wires_app. simpl.
  rewrite lookup_app_r by (rewrite set_wires_length, length_take; lia).
  rewrite set_wires_length, length_take.
  apply lookup_lt_Some in Hi as Hlt.
  replace (i - i `min` length items)%nat with 0%nat by lia.
  destruct (nbp_control_fet_impl _ _ _) as [ok d'].
  by destruct (set_wires (drop (S i) items) d').
Qed.

Lemma set_wire_item_run (req : PbRequest.t) (i : nat)
    (item : PbSetHVACWireRequest.t) (success success' : block bool)
    (w : world) :
  PbRequest.sethvacwire req !! i = Some item →
  store success i
        (nbp_control_fet_impl (nbp w) (PbSetHVACWireRequest.wire item)
                              (PbSetHVACWireRequest.connect item)).1
  = Some success' →
  set_wire_item req i success w
  = Done success'
      (mk_world
         (nbp_control_fet_impl (nbp w) (PbSetHVACWireRequest.wire item)
                               (PbSetHVACWireRequest.connect item)).2
         (my_devid w) (ts_next_periodic_req w) (ts_timeout w) (device_rx w)
         (inbox w)
         (trace w ++ [set_wire_call item
            (nbp_control_fet_impl (nbp w) (PbSetHVACWireRequest.wire item)
                                  (PbSetHVACWireRequest.connect item)).1])).
Proof.
  intros Hi Hstore. unfold set_wire_item. rewrite Hi. simpl access.
  unfold mbind, M_bind, mret, M_ret, nbp_control_fet.
  destruct (nbp_control_fet_impl _ _ _) as [ok d']. simpl in *.
  by rewrite Hstore.
Qed.

Lemma set_wire_loop (req : PbRequest.t)
    (pre post : list PbSetHVACWireRequest.t) (rp : list bool) (w : world) :
  PbRequest.sethvacwire req = pre ++ post →
  length rp = length pre →
  for_each (seq (length pre) (length post)) (set_wire_item req)
           ((Some <$> rp) ++ replicate (length post) None) w
  = Done (Some <$> (rp ++ (set_wires post (nbp w)).1))
         (mk_world (set_wires post (nbp w)).2 (my_devid w)
                   (ts_next_periodic_req w) (ts_timeout w) (device_rx w)
                   (inbox w)
                   (trace w ++ zip_with set_wire_call post
                                        (set_wires post (nbp w)).1)).
Proof.
  revert pre rp w. induction post as [|item post IH]; intros pre rp w Hreq Hlen.
  - simpl. rewrite !app_nil_r. by destruct w.
  - simpl seq. simpl for_each. simpl replicate.
    erewrite bind_done; cycle 1.
    { apply (set_wire_item_run req (length pre) item).
      - rewrite Hreq. by rewrite list_lookup_middle.
      - rewrite <- Hlen. apply store_next. }
    specialize (IH (pre ++ [item])).
    rewrite length_app in IH. simpl in IH. rewrite Nat.add_1_r in IH.
    rewrite IH.
    + simpl.
      destruct (nbp_control_fet_impl _ _ _) as [ok d']. simpl.
      destruct (set_wires post d') as [oks d'']. simpl.
      by rewrite <- !app_assoc.
    + by rewrite Hreq, <- app_assoc.
    + rewrite !length_app. simpl. lia.
Qed.

(** C1.  A control request that decodes is answered with one boolean per
    item: the handler receives it, has the device session set the wire of
    every item, in the order of the request and whatever the earlier
    results were, and then sends the reply, whose i-th boolean is what the
    session returned for the i-th item.  The reply is sent once, also when
    every item failed and when the request is empty. *)
Theorem handle_req_reply (s : socket) (w : world) (data : list byte)
    (rest : list (option (list byte))) (req : PbRequest.t) :
  inbox w s = Some data :: rest →
  pb_request__unpack data = Some req →
  ∃ (w' : world) (results : list bool),
    handle_req s w = Done tt w'
    ∧ length results = length (PbRequest.sethvacwire req)
    ∧ trace w' = trace w
                 ++ [ZmqRecvProtobuf s]
                 ++ zip_with set_wire_call (PbRequest.sethvacwire req) results
                 ++ [ZmqSendProtobuf s
                       (pb_request_reply (PbRequestReply.mk results))]
    ∧ (∀ (i : nat) (item : PbSetHVACWireRequest.t),
         PbRequest.sethvacwire req !! i = Some item →
         results !! i
         = Some (nbp_control_fet_impl
                   (set_wires (take i (PbRequest.sethvacwire req)) (nbp w)).2
                   (PbSetHVACWireRequest.wire item)
                   (PbSetHVACWireRequest.connect item)).1)
    ∧ (PbRequest.sethvacwire req = [] → results = []).
Proof.
  intros Hin Hreq.
  set (w0 := log_call (ZmqRecvProtobuf s) (set_inbox s rest w)).
  exists (log_call
            (ZmqSendProtobuf s
               (pb_request_reply
                  (PbRequestReply.mk
                     (set_wires (PbRequest.sethvacwire req) (nbp w)).1)))
            (mk_world (set_wires (PbRequest.sethvacwire req) (nbp w0)).2
               (my_devid w0) (ts_next_periodic_req w0) (ts_timeout w0)
               (device_rx w0) (inbox w0)
               (trace w0 ++ zip_with set_wire_call (PbRequest.sethvacwire req)
                                (set_wires (PbRequest.sethvacwire req)
                                           (nbp w0)).1))),
         (set_wires (PbRequest.sethvacwire req) (nbp w)).1.
  split; [|split; [|split; [|split]]].
  - pose proof (set_wire_loop req [] (PbRequest.sethvacwire req) [] w0
                  eq_refl eq_refl) as Hloop.
    simpl in Hloop.
    unfold handle_req, mbind, M_bind, zmq_recv_protobuf.
    rewrite Hin, Hreq. simpl access. unfold mret at 1, M_ret.
    unfold malloc, PbRequest.n_sethvacwire. fold w0. rewrite Hloop.
    pose proof (load_range_filled
                  (set_wires (PbRequest.sethvacwire req) (nbp w)).1) as Hl.
    rewrite set_wires_length in Hl. rewrite Hl. simpl access.
    unfold mret, M_ret. reflexivity.
  - apply set_wires_length.
  - simpl. by rewrite <- !app_assoc.
  - intros i item Hi. by apply set_wires_lookup.
  - by intros ->.
Qed.

(** ** The snapshot builder *)

Lemma land_0x40 (flags : Z) :
  negb (truthy (Z.land flags 0x40)) = negb (Z.testbit flags 6).
Proof.
  unfold truthy. rewrite negb_involutive. f_equal.
  destruct (Z.testbit flags 6) eqn:Hbit.
  - apply Z.eqb_neq. intros Hz.
    assert (Z.testbit (Z.land flags 64) 6 = true) as Hb
      by (rewrite Z.land_spec, Hbit; reflexivity).
    rewrite Hz in Hb. discriminate.
  - apply Z.eqb_eq. apply Z.bits_inj'. intros n Hn.
    rewrite Z.land_spec, Z.bits_0.
    change 64 with (2 ^ 6). rewrite Z.pow2_bits_eqb by lia.
    destruct (Z.eqb_spec 6 n) as [<-|]; [by rewrite Hbit|].
    apply andb_false_r.
Qed.

Lemma store_last {A : Type} (l : list A) (rest : block A) (x y : A) :
  store ((Some <$> (l ++ [y])) ++ rest) (length l) x
  = Some ((Some <$> (l ++ [x])) ++ rest).
Proof.
  unfold store. rewrite decide_True.
  - f_equal. rewrite insert_app_l by (rewrite length_fmap, length_app; simpl; lia).
    f_equal. rewrite !fmap_app. simpl.
    rewrite insert_app_r_alt by (rewrite length_fmap; lia).
    by rewrite length_fmap, Nat.sub_diag.
  - rewrite length_app, length_fmap, length_app. simpl. lia.
Qed.

Lemma deref_range_filled {A : Type} (l : list A) (rest : block nat)
    (rest' : block A) :
  deref_range ((Some <$> seq 0 (length l)) ++ rest) ((Some <$> l) ++ rest')
              (length l)
  = Some l.
Proof.
  unfold deref_range. apply mapM_Some_2.
  apply Forall2_same_length_lookup_2.
  - by rewrite length_seq.
  - intros i k x Hk Hx.
    apply lookup_seq in Hk as [-> Hlt]. simpl.
    rewrite (load_filled (seq 0 (length l)) rest i i)
      by (by apply lookup_seq_lt).
    simpl. by apply load_filled.
Qed.

Lemma store_next_pointer (n k : nat) :
  store ((Some <$> seq 0 n) ++ replicate (S k) None) n n
  = Some ((Some <$> seq 0 (S n)) ++ replicate k None).
Proof.
  pose proof (store_next (seq 0 n) k n) as Hs.
  rewrite length_seq in Hs. by rewrite seq_S.
Qed.

Lemma wire_step_run (i : nat) (entries : list PbSetHVACWireRequest.t)
    (k : nat) (w : world) :
  wire_step i (bufs_with entries (S k)) w
  = Done (match wire_entry (nbp w) i with
          | Some e => bufs_with (entries ++ [e]) k
          | None => bufs_with entries (S k)
          end)
         (log_call (NbpGetFetAsserted (Z.of_nat i)) w).
Proof.
  unfold wire_step, wire_entry, mbind, M_bind, nbp_get_fet_asserted.
  destruct (nbp_get_fet_asserted_impl (nbp w) (Z.of_nat i)); try done.
  all: unfold bufs_with; cbn [pbwire_top pbwire wire_change n_wire_change].
  all: rewrite store_next; cbn [access]; unfold mret at 1, M_ret.
  all: rewrite store_last; cbn [access]; unfold mret at 1, M_ret.
  all: rewrite store_next_pointer; cbn [access]; unfold mret, M_ret.
  all: by rewrite !length_app, Nat.add_1_r.
Qed.

Lemma wire_loop (idx : list nat) (entries : list PbSetHVACWireRequest.t)
    (k : nat) (w : world) :
  (length idx ≤ k)%nat →
  for_each idx wire_step (bufs_with entries k) w
  = Done (bufs_with (entries ++ omap (wire_entry (nbp w)) idx)
                    (k - length (omap (wire_entry (nbp w)) idx)))
         (mk_world (nbp w) (my_devid w) (ts_next_periodic_req w)
                   (ts_timeout w) (device_rx w) (inbox w)
                   (trace w ++ fet_queries idx)).
Proof.
  revert entries k w. induction idx as [|i idx IH]; intros entries k w Hk.
  - simpl. rewrite !app_nil_r, Nat.sub_0_r. by destruct w.
  - destruct k as [|k]; [simpl in Hk; lia|].
    simpl for_each. erewrite bind_done by apply wire_step_run.
    simpl in Hk. cbn [omap list_omap].
    destruct (wire_entry (nbp w) i) as [e|].
    + rewrite IH by lia. simpl. by rewrite <- !app_assoc.
    + rewrite IH by lia. simpl. by rewrite <- !app_assoc.
Qed.

(** What [send_snapshot] does, whatever the device holds: it queries the
    wires from 0 up, faults nowhere and publishes the full-state event. *)
Lemma send_snapshot_run (w : world) :
  send_snapshot w
  = Done tt
      (mk_world (nbp w) (my_devid w) (ts_next_periodic_req w)
         (ts_timeout w) (device_rx w) (inbox w)
         (trace w ++ fet_queries (seq 0 PB_HVACWIRES___COUNT)
                  ++ [ZmqSendProtobuf my_zmq_publisher
                        (pb_event (snapshot_event (nbp w)))])).
Proof.
  unfold send_snapshot, mbind, M_bind, gets.
  pose proof (wire_loop (seq 0 PB_HVACWIRES___COUNT) [] PB_HVACWIRES___COUNT w)
    as Hloop.
  rewrite length_seq in Hloop. specialize (Hloop (Nat.le_refl _)).
  unfold bufs_with in Hloop at 1. simpl in Hloop. unfold malloc.
  rewrite Hloop. unfold bufs_with.
  cbn [pbwire_top pbwire wire_change n_wire_change].
  rewrite deref_range_filled. cbn [access]. unfold mret, M_ret.
  unfold zmq_send_protobuf, modify, log_call, snapshot_event. simpl.
  rewrite !land_0x40. by rewrite <- app_assoc.
Qed.

Lemma byte_nonzero (b : byte) : b ≠ x00 → Byte.eqb b x00 = false.
Proof.
  intros Hb. destruct (Byte.eqb b x00) eqn:E; [|done].
  by apply Byte.byte_dec_bl in E.
Qed.

(** A notification whose first byte is not zero is a subscription: the
    snapshot is sent from the world the receive leaves. *)
Lemma got_new_subscriber_subscribe (s : socket) (w : world) (data0 : byte)
    (data : list byte) (rest : list (option (list byte))) :
  inbox w s = Some (data0 :: data) :: rest →
  data0 ≠ x00 →
  got_new_subscriber s w
  = send_snapshot (log_call (ZmqMsgRecv s) (set_inbox s rest w)).
Proof.
  intros Hin Hb.
  unfold got_new_subscriber, mbind, M_bind, zmq_msg_recv.
  rewrite Hin. simpl. by rewrite byte_nonzero.
Qed.

(** A notification that is empty or starts with a zero byte is dropped. *)
Lemma got_new_subscriber_ignore (s : socket) (w : world) (data : list byte)
    (rest : list (option (list byte))) :
  inbox w s = Some data :: rest →
  head data = None ∨ head data = Some x00 →
  got_new_subscriber s w
  = Done tt (log_call (ZmqMsgRecv s) (set_inbox s rest w)).
Proof.
  intros Hin Hd.
  unfold got_new_subscriber, mbind, M_bind, zmq_msg_recv.
  rewrite Hin. destruct data as [|b data]; [done|].
  destruct Hd as [Hd|Hd]; [done|]. injection Hd as ->.
  reflexivity.
Qed.

Lemma wire_entry_wire (d : device) (i : nat) (e : PbSetHVACWireRequest.t) :
  wire_entry d i = Some e → PbSetHVACWireRequest.wire e = Z.of_nat i.
Proof.
  unfold wire_entry.
  by destruct (nbp_get_fet_asserted_impl d (Z.of_nat i)); intros [= <-].
Qed.

Lemma wire_entries_sorted (d : device) (a n : nat) :
  StronglySorted Z.lt
    (PbSetHVACWireRequest.wire <$> omap (wire_entry d) (seq a n))
  ∧ Forall (λ z, Z.of_nat a ≤ z)
      (PbSetHVACWireRequest.wire <$> omap (wire_entry d) (seq a n)).
Proof.
  revert a. induction n as [|n IH]; intros a.
  - split; constructor.
  - destruct (IH (S a)) as [Hs Hb]. simpl seq. cbn [omap list_omap].
    assert (Forall (λ z, Z.of_nat a < z)
              (PbSetHVACWireRequest.wire
                 <$> omap (wire_entry d) (seq (S a) n))) as Hlt.
    { eapply Forall_impl; [exact Hb|]. simpl. intros z Hz. lia. }
    destruct (wire_entry d a) as [e|] eqn:He.
    + apply wire_entry_wire in He. simpl. rewrite He. split.
      * by constructor.
      * constructor; [lia|].
        eapply Forall_impl; [exact Hlt|]. simpl. intros z Hz. lia.
    + split; [done|].
      eapply Forall_impl; [exact Hlt|]. simpl. intros z Hz. lia.
Qed.

(** How many entries of a snapshot name wire [n]. *)
Lemma wire_entries_count (d : device) (a m n : nat) :
  length (filter (λ e, PbSetHVACWireRequest.wire e = Z.of_nat n)
                 (omap (wire_entry d) (seq a m)))
  = if bool_decide (a ≤ n < a + m)%nat
    then (if wire_entry d n is Some _ then 1 else 0)%nat
    else 0%nat.
Proof.
  revert a. induction m as [|m IH]; intros a.
  - simpl. by rewrite bool_decide_false by lia.
  - simpl seq. cbn [omap list_omap]. specialize (IH (S a)).
    destruct (decide (a = n)) as [->|Hne].
    + rewrite bool_decide_false in IH by lia.
      rewrite bool_decide_true by lia.
      destruct (wire_entry d n) as [e|] eqn:He; [|done].
      apply wire_entry_wire in He.
      rewrite filter_cons_True by done. simpl. by rewrite IH.
    + destruct (wire_entry d a) as [e|] eqn:He.
      * apply wire_entry_wire in He.
        rewrite filter_cons_False by (rewrite He; lia).
        rewrite IH.
        by rewrite (bool_decide_ext (S a ≤ n < S a + m)%nat
                                    (a ≤ n < a + S m)%nat) by lia.
      * rewrite IH.
        by rewrite (bool_decide_ext (S a ≤ n < S a + m)%nat
                                    (a ≤ n < a + S m)%nat) by lia.
Qed.

(** C2.  On a subscription the snapshot is published once, and its
    wire-change list is made of the wires whose asserted state is known:
    the ids go strictly up, a wire of state true or false is named by
    exactly one entry, which carries that state as its connect flag, and a
    wire of unknown state is named by none. *)
Theorem snapshot_wire_changes (s : socket) (w : world) (data0 : byte)
    (data : list byte) (rest : list (option (list byte))) :
  inbox w s = Some (data0 :: data) :: rest →
  data0 ≠ x00 →
  ∃ (w' : world) (ev : PbEvent.t),
    got_new_subscriber s w = Done tt w'
    ∧ trace w' = trace w
                 ++ [ZmqMsgRecv s]
                 ++ fet_queries (seq 0 PB_HVACWIRES___COUNT)
                 ++ [ZmqSendProtobuf my_zmq_publisher (pb_event ev)]
    ∧ StronglySorted Z.lt
        (PbSetHVACWireRequest.wire <$> PbEvent.wire_change ev)
    ∧ (∀ n : nat, (n < PB_HVACWIRES___COUNT)%nat →
         length (filter (λ e, PbSetHVACWireRequest.wire e = Z.of_nat n)
                        (PbEvent.wire_change ev))
         = match nbp_get_fet_asserted_impl (nbp w) (Z.of_nat n) with
           | FTS_UNKNOWN => 0%nat
           | _ => 1%nat
           end)
    ∧ (∀ e : PbSetHVACWireRequest.t,
         e ∈ PbEvent.wire_change ev ↔
         ∃ n : nat,
           (n < PB_HVACWIRES___COUNT)%nat
           ∧ PbSetHVACWireRequest.wire e = Z.of_nat n
           ∧ nbp_get_fet_asserted_impl (nbp w) (Z.of_nat n)
             = if PbSetHVACWireRequest.connect e then FTS_TRUE else FTS_FALSE).
Proof.
  intros Hin Hb.
  eexists _, (snapshot_event (nbp w)).
  split; [|split; [|split; [|split]]].
  - rewrite (got_new_subscriber_subscribe s w data0 data rest Hin Hb).
    apply send_snapshot_run.
  - simpl. by rewrite <- !app_assoc.
  - apply wire_entries_sorted.
  - intros n Hn. simpl. rewrite wire_entries_count.
    rewrite bool_decide_true by lia. unfold wire_entry.
    by destruct (nbp_get_fet_asserted_impl (nbp w) (Z.of_nat n)).
  - intros e. simpl. rewrite list_elem_of_omap. split.
    + intros (n & Hn & He). apply elem_of_seq in Hn.
      exists n. split; [lia|]. unfold wire_entry in He.
      destruct (nbp_get_fet_asserted_impl (nbp w) (Z.of_nat n));
        [| |done]; by injection He as <-.
    + intros (n & Hn & Hw & Ha). exists n. split.
      * apply elem_of_seq. lia.
      * unfold wire_entry. rewrite Ha. destruct e as [wi co].
        simpl in *. subst wi. by destruct co.
Qed.

Lemma wire_entries_length (d : device) (idx : list nat) :
  (length (omap (wire_entry d) idx) ≤ length idx)%nat.
Proof.
  induction idx as [|i idx IH]; [done|]. cbn [omap list_omap].
  destruct (wire_entry d i); simpl length; lia.
Qed.

Lemma got_new_subscriber_no_fault (s : socket) (w w' : world) :
  got_new_subscriber s w ≠ Stop Faulted w'.
Proof.
  destruct (inbox w s) as [|[data|] rest] eqn:Hin.
  - unfold got_new_subscriber, mbind, M_bind, zmq_msg_recv.
    by rewrite Hin.
  - destruct data as [|b data].
    + by rewrite (got_new_subscriber_ignore s w [] rest Hin (or_introl eq_refl)).
    + destruct (Byte.byte_eq_dec b x00) as [->|Hb].
      * by rewrite (got_new_subscriber_ignore s w _ rest Hin
                      (or_intror eq_refl)).
      * rewrite (got_new_subscriber_subscribe s w b data rest Hin Hb).
        by rewrite send_snapshot_run.
  - unfold got_new_subscriber, mbind, M_bind, zmq_msg_recv.
    by rewrite Hin.
Qed.

(** C10.  Whatever the device holds, the snapshot loop runs to its end
    without a store outside the two blocks of PB_HVACWIRES___COUNT cells:
    the count of entries and the cursor end at most at
    PB_HVACWIRES___COUNT, the blocks keep their size, only the wire ids
    from 0 to PB_HVACWIRES___COUNT - 1 are queried, and only those are in
    the entries the serialiser reads.  The handler as a whole never
    faults. *)
Theorem snapshot_within_capacity (w : world) :
  ∃ (b : wire_bufs) (w1 : world) (changes : list PbSetHVACWireRequest.t),
    for_each (seq 0 PB_HVACWIRES___COUNT) wire_step
             (mk_wire_bufs (malloc PB_HVACWIRES___COUNT) 0
                           (malloc PB_HVACWIRES___COUNT) 0) w
    = Done b w1
    ∧ (n_wire_change b ≤ PB_HVACWIRES___COUNT)%nat
    ∧ (pbwire b ≤ PB_HVACWIRES___COUNT)%nat
    ∧ length (pbwire_top b) = PB_HVACWIRES___COUNT
    ∧ length (wire_change b) = PB_HVACWIRES___COUNT
    ∧ trace w1 = trace w ++ fet_queries (seq 0 PB_HVACWIRES___COUNT)
    ∧ (∀ fet : Z,
         NbpGetFetAsserted fet ∈ fet_queries (seq 0 PB_HVACWIRES___COUNT) →
         0 ≤ fet < Z.of_nat PB_HVACWIRES___COUNT)
    ∧ deref_range (wire_change b) (pbwire_top b) (n_wire_change b)
      = Some changes
    ∧ length changes = n_wire_change b
    ∧ Forall (λ e, 0 ≤ PbSetHVACWireRequest.wire e
                   < Z.of_nat PB_HVACWIRES___COUNT) changes
    ∧ (∀ (s : socket) (w' : world), got_new_subscriber s w ≠ Stop Faulted w').
Proof.
  pose proof (wire_loop (seq 0 PB_HVACWIRES___COUNT) [] PB_HVACWIRES___COUNT w)
    as Hloop.
  rewrite length_seq in Hloop. specialize (Hloop (Nat.le_refl _)).
  pose proof (wire_entries_length (nbp w) (seq 0 PB_HVACWIRES___COUNT)) as Hle.
  rewrite length_seq in Hle.
  set (known := omap (wire_entry (nbp w)) (seq 0 PB_HVACWIRES___COUNT)) in *.
  eexists _, _, known.
  split; [exact Hloop|]. simpl.
  split; [done|]. split; [done|].
  split; [rewrite length_app, length_fmap, length_replicate; lia|].
  split; [rewrite length_app, length_fmap, length_seq, length_replicate; lia|].
  split; [done|]. split.
  { intros fet Hfet. unfold fet_queries in Hfet.
    apply list_elem_of_fmap in Hfet as (n & [= ->] & Hn).
    apply elem_of_seq in Hn. lia. }
  split; [apply deref_range_filled|]. split; [done|]. split.
  - apply Forall_forall. intros e He.
    apply list_elem_of_omap in He as (n & Hn & He).
    apply elem_of_seq in Hn. apply wire_entry_wire in He. lia.
  - intros s w'. apply got_new_subscriber_no_fault.
Qed.

(** C6.  A notification of no byte, and one whose first byte is zero, is
    received and nothing is published.  The one-byte notification 0x01,
    on a device with no weather reading, no power reading and every wire
    unknown, publishes one event: no weather, no battery, no wire
    change. *)
Theorem subscription_boundaries (s : socket) (w : world) (data : list byte)
    (rest : list (option (list byte))) :
  inbox w s = Some data :: rest →
  (head data = None ∨ head data = Some x00 →
   ∃ w' : world,
     got_new_subscriber s w = Done tt w'
     ∧ trace w' = trace w ++ [ZmqMsgRecv s]
     ∧ published (trace w') = published (trace w))
  ∧ (data = [x01] →
     has_weather (nbp w) = false →
     has_powerinfo (nbp w) = false →
     (∀ n : nat, (n < PB_HVACWIRES___COUNT)%nat →
        nbp_get_fet_asserted_impl (nbp w) (Z.of_nat n) = FTS_UNKNOWN) →
     ∃ w' : world,
       got_new_subscriber s w = Done tt w'
       ∧ trace w' = trace w
                    ++ [ZmqMsgRecv s]
                    ++ fet_queries (seq 0 PB_HVACWIRES___COUNT)
                    ++ [ZmqSendProtobuf my_zmq_publisher
                          (pb_event (PbEvent.mk None None []))]
       ∧ published (trace w')
         = published (trace w) ++ [PbEvent.mk None None []]).
Proof.
  intros Hin. split.
  - intros Hd. eexists.
    split; [by apply (got_new_subscriber_ignore s w data rest)|].
    split; [done|]. simpl. unfold published.
    rewrite omap_app. simpl. by rewrite app_nil_r.
  - intros -> Hw Hp Hunk.
    assert (snapshot_event (nbp w) = PbEvent.mk None None []) as Hev.
    { unfold snapshot_event. simpl. rewrite Hw, Hp. f_equal.
      assert (∀ idx : list nat,
                Forall (λ n, n < PB_HVACWIRES___COUNT)%nat idx →
                omap (wire_entry (nbp w)) idx = []) as Hnone.
      { intros idx Hidx. induction Hidx as [|n idx Hn _ IH]; [done|].
        cbn [omap list_omap]. unfold wire_entry at 1.
        by rewrite (Hunk n Hn). }
      apply Hnone. apply Forall_forall. intros n Hn.
      apply elem_of_seq in Hn. lia. }
    eexists. split.
    { rewrite (got_new_subscriber_subscribe s w x01 [] rest Hin) by done.
      apply send_snapshot_run. }
    unfold log_call, set_inbox. cbn [nbp trace]. rewrite Hev.
    split; [simpl; by rewrite <- !app_assoc|].
    simpl. unfold published. rewrite !omap_app. simpl.
    assert (∀ idx, omap (λ c, match c with
                               | ZmqSendProtobuf my_zmq_publisher (pb_event e) =>
                                   Some e
                               | _ => None
                               end) (fet_queries idx) = []) as ->
      by (intros idx; by induction idx).
    by rewrite app_nil_r.
Qed.

(** ** The event encoder *)

(** C8, as the code has it.  The weather handler writes nothing to the
    device structure: it logs one line and publishes one event, whose only
    record is the weather, with the temperature and the humidity it was
    called with. *)
Theorem msg_weather_event (now : timespec) (t h : Z) (w : world) :
  ∃ w' : world,
    msg_weather now t h w = Done tt w'
    ∧ nbp w' = nbp w
    ∧ trace w' = trace w
                 ++ [weather_log t h;
                     ZmqSendProtobuf my_zmq_publisher
                                     (pb_event (weather_only t h))]
    ∧ published (trace w') = published (trace w) ++ [weather_only t h].
Proof.
  unfold msg_weather. run. eexists. split; [reflexivity|].
  split; [done|]. split.
  - simpl. by rewrite <- app_assoc.
  - simpl. unfold published. rewrite !omap_app. simpl.
    by rewrite app_nil_r.
Qed.

(** C7, as the code has it.  The power-status handler writes nothing to
    the device structure: it logs one line and publishes one event, whose
    only record is the battery, charging exactly when bit 6 (mask 0x40)
    of the flags is clear, with the battery voltage it was called with.
    The snapshot has a battery record exactly when the device holds a
    power reading, and derives charging from the stored flags by the same
    rule. *)
Theorem msg_power_status_event (now : timespec)
    (state flags px0 u1 u2 u3 vi_cV vo_mV vb pins wires : Z) (w : world) :
  (∃ w' : world,
     msg_power_status now state flags px0 u1 u2 u3 vi_cV vo_mV vb pins wires w
     = Done tt w'
     ∧ nbp w' = nbp w
     ∧ trace w' = trace w
                  ++ [power_log flags vi_cV vo_mV vb;
                      ZmqSendProtobuf my_zmq_publisher
                        (pb_event (battery_only (bit6_clear flags) vb))]
     ∧ published (trace w')
       = published (trace w) ++ [battery_only (bit6_clear flags) vb])
  ∧ (bit6_clear flags = true ↔ Z.land flags 0x40 = 0)
  ∧ (∃ (w' : world) (ev : PbEvent.t),
       send_snapshot w = Done tt w'
       ∧ published (trace w') = published (trace w) ++ [ev]
       ∧ PbEvent.battery ev
         = if has_powerinfo (nbp w)
           then Some (PbBattery.mk true (bit6_clear (power_flags (nbp w)))
                                   true (vb_mV (nbp w)))
           else None).
Proof.
  split; [|split].
  - unfold msg_power_status. run. eexists. split; [reflexivity|].
    split; [done|].
    cbn [trace log_call]. rewrite land_0x40. fold (bit6_clear flags).
    split.
    + simpl. by rewrite <- app_assoc.
    + unfold published. rewrite !omap_app. simpl.
      by rewrite app_nil_r.
  - unfold bit6_clear. rewrite <- land_0x40. unfold truthy.
    rewrite negb_involutive. apply Z.eqb_eq.
  - eexists _, (snapshot_event (nbp w)).
    split; [apply send_snapshot_run|]. split; [|done].
    cbn [trace]. unfold published. rewrite !omap_app.
    assert (∀ idx, omap (λ c, match c with
                               | ZmqSendProtobuf my_zmq_publisher (pb_event e) =>
                                   Some e
                               | _ => None
                               end) (fet_queries idx) = []) as ->
      by (intros idx; by induction idx).
    done.
Qed.

(** ** Readings kept by the session, and the snapshot after them *)

Lemma deliver_weather_run (now : timespec) (t h : Z) (w : world) :
  cb_msg_weather (nbp w) = Some msg_weather_fn →
  deliver now (FrameWeather t h) w
  = Done tt
      (mk_world (record_weather t h (nbp w)) (my_devid w)
         (ts_next_periodic_req w) (ts_timeout w) (device_rx w) (inbox w)
         (trace w ++ [weather_log t h;
                      ZmqSendProtobuf my_zmq_publisher
                                      (pb_event (weather_only t h))])).
Proof.
  intros Hcb. unfold deliver. run. cbn [nbp set_nbp record_weather cb_msg_weather].
  rewrite Hcb. unfold invoke, msg_weather. run.
  unfold log_call, set_nbp. simpl. by rewrite <- app_assoc.
Qed.

Lemma deliver_all_weather (readings : list (timespec * (Z * Z))) (w : world) :
  cb_msg_weather (nbp w) = Some msg_weather_fn →
  ∃ w1 : world,
    deliver_all (weather_frames readings) w = Done tt w1
    ∧ nbp w1 = foldl (λ d r, record_weather r.2.1 r.2.2 d) (nbp w) readings
    ∧ inbox w1 = inbox w.
Proof.
  revert w. induction readings as [|[now [t h]] readings IH]; intros w Hcb.
  - by exists w.
  - simpl. erewrite bind_done by by apply deliver_weather_run.
    edestruct IH as (w1 & Hrun & Hnbp & Hin); [|exists w1; split; [exact Hrun|]].
    + done.
    + by rewrite Hnbp, Hin.
Qed.

(** C3.  After any sequence of weather readings delivered by the session,
    a subscription publishes one event whose weather record is there
    exactly when the device holds a weather reading, and which, when the
    sequence is not empty, carries the temperature and the humidity of
    its last reading. *)
Theorem snapshot_reports_latest_weather (w : world)
    (readings : list (timespec * (Z * Z))) (s : socket) (data0 : byte)
    (data : list byte) (rest : list (option (list byte))) :
  cb_msg_weather (nbp w) = Some msg_weather_fn →
  inbox w s = Some (data0 :: data) :: rest →
  data0 ≠ x00 →
  ∃ (w1 w2 : world) (ev : PbEvent.t),
    deliver_all (weather_frames readings) w = Done tt w1
    ∧ got_new_subscriber s w1 = Done tt w2
    ∧ trace w2 = trace w1
                 ++ [ZmqMsgRecv s]
                 ++ fet_queries (seq 0 PB_HVACWIRES___COUNT)
                 ++ [ZmqSendProtobuf my_zmq_publisher (pb_event ev)]
    ∧ (is_Some (PbEvent.weather ev) ↔ has_weather (nbp w1) = true)
    ∧ (∀ (now : timespec) (t h : Z),
         last readings = Some (now, (t, h)) →
         holds_weather (nbp w1) t h
         ∧ PbEvent.weather ev = Some (PbWeather.mk true t true h))
    ∧ (readings = [] → nbp w1 = nbp w).
Proof.
  intros Hcb Hin Hb.
  destruct (deliver_all_weather readings w Hcb) as (w1 & Hrun & Hnbp & Hin1).
  exists w1. eexists _, (snapshot_event (nbp w1)).
  split; [exact Hrun|]. split.
  { rewrite (got_new_subscriber_subscribe s w1 data0 data rest) by
      (by rewrite ?Hin1).
    apply send_snapshot_run. }
  split; [simpl; by rewrite <- !app_assoc|]. split; [|split].
  - simpl. destruct (has_weather (nbp w1)); split; try done;
      by intros [? [=]].
  - intros now t h Hlast. apply last_Some in Hlast as [pre ->].
    rewrite foldl_app in Hnbp. simpl in Hnbp.
    assert (holds_weather (nbp w1) t h) as Hholds by (by rewrite Hnbp).
    split; [exact Hholds|]. destruct Hholds as (Hw & Ht & Hh).
    simpl. by rewrite Hw, Ht, Hh.
  - intros ->. exact Hnbp.
Qed.

(** ** Reset complete *)

(** Close a goal that asks for the calls a run added, given them. *)
Ltac settle tr :=
  exists tr;
  split; [by rewrite ?app_nil_r, <- ?app_assoc
         |split; [by repeat constructor | by split]].

Ltac settle_added :=
  match goal with
  | |- ∃ tr, ?l ++ ?a = _ ++ tr ∧ _ => settle a
  | |- ∃ tr, (?l ++ [?a]) ++ [?b] = _ ++ tr ∧ _ => settle [a; b]
  end.

Lemma outcome_world_bind {A B : Type} (m : M A) (f : A → M B) (w : world) :
  outcome_world ((m ≫= f) w)
  = match m w with
    | Done a w' => outcome_world (f a w')
    | Stop _ w' => w'
    end.
Proof. unfold mbind, M_bind. by destruct (m w). Qed.

(** With the fet-presence callback cleared, no frame delivered reaches
    [reset_complete]: the callback stays cleared, the deadline stays, and
    no call is made that sends to the device or binds an endpoint. *)
Lemma deliver_cleared (now : timespec) (f : nbp_frame) (w : world) :
  cb_msg_fet_presence (nbp w) = None →
  ∃ tr : list call,
    trace (outcome_world (deliver now f w)) = trace w ++ tr
    ∧ Forall (λ c, quiet c = true) tr
    ∧ cb_msg_fet_presence (nbp (outcome_world (deliver now f w))) = None
    ∧ ts_next_periodic_req (outcome_world (deliver now f w))
      = ts_next_periodic_req w.
Proof.
  intros Hcb. destruct f as [msg|t h|st fl px0 u1 u2 u3 vi vo vb pins wires|mask].
  - unfold deliver. run. destruct (cb_msg_log (nbp w)) as [[]|]; simpl;
      first [ settle (@nil call) | settle_added ].
  - unfold deliver. run. cbn [nbp set_nbp record_weather cb_msg_weather].
    destruct (cb_msg_weather (nbp w)) as [[]|]; simpl;
      first [ settle (@nil call) | settle_added ].
  - unfold deliver. run. cbn [nbp set_nbp record_power cb_msg_power_status].
    destruct (cb_msg_power_status (nbp w)) as [[]|]; simpl;
      first [ settle (@nil call) | settle_added ].
  - unfold deliver. run. rewrite Hcb. simpl. settle (@nil call).
Qed.

Lemma deliver_all_cleared (frames : list (timespec * nbp_frame)) (w : world) :
  cb_msg_fet_presence (nbp w) = None →
  ∃ tr : list call,
    trace (outcome_world (deliver_all frames w)) = trace w ++ tr
    ∧ Forall (λ c, quiet c = true) tr
    ∧ cb_msg_fet_presence (nbp (outcome_world (deliver_all frames w))) = None
    ∧ ts_next_periodic_req (outcome_world (deliver_all frames w))
      = ts_next_periodic_req w.
Proof.
  revert w. induction frames as [|[now f] frames IH]; intros w Hcb.
  - exists []. simpl. rewrite app_nil_r. by repeat split.
  - simpl. rewrite outcome_world_bind.
    destruct (deliver_cleared now f w Hcb) as (tr & Htr & Hq & Hcb' & Hts).
    destruct (deliver now f w) as [[] w1|why w1]; simpl in *.
    + destruct (IH w1 Hcb') as (tr' & Htr' & Hq' & Hcb'' & Hts').
      exists (tr ++ tr'). rewrite Htr', Htr, Hts', Hts, <- app_assoc.
      repeat split; try done. by apply Forall_app.
    + by exists tr.
Qed.

(** *** Once cleared, cleared for good *)

Lemma settled_ret {A : Type} (a : A) : settled (mret a : M A).
Proof.
  intros w Hcb. split; [done|]. exists []. simpl. by rewrite app_nil_r.
Qed.

Lemma settled_halt {A : Type} (why : stop) : settled (halt why : M A).
Proof.
  intros w Hcb. split; [done|]. exists []. simpl. by rewrite app_nil_r.
Qed.

Lemma settled_bind {A B : Type} (m : M A) (f : A → M B) :
  settled m → (∀ a, settled (f a)) → settled (m ≫= f).
Proof.
  intros Hm Hf w Hcb. rewrite outcome_world_bind.
  destruct (Hm w Hcb) as [Hcb1 (tr & Htr & Hq)].
  destruct (m w) as [a w1|why w1]; simpl in *.
  - destruct (Hf a w1 Hcb1) as [Hcb2 (tr' & Htr' & Hq')].
    split; [done|]. exists (tr ++ tr').
    rewrite Htr', Htr, <- app_assoc. split; [done|]. by apply Forall_app.
  - split; [done|]. by exists tr.
Qed.

Lemma settled_gets {A : Type} (f : world → A) : settled (gets f).
Proof.
  intros w Hcb. split; [done|]. exists []. simpl. by rewrite app_nil_r.
Qed.

Lemma settled_log (c : call) : is_bind c = false → settled (modify (log_call c)).
Proof.
  intros Hc w Hcb. split; [done|]. exists [c]. split; [done|].
  by repeat constructor.
Qed.

Lemma settled_set (f : world → world) :
  (∀ w, trace (f w) = trace w
        ∧ cb_msg_fet_presence (nbp (f w)) = cb_msg_fet_presence (nbp w)) →
  settled (modify f).
Proof.
  intros Hf w Hcb. destruct (Hf w) as [Htr Hsame]. simpl.
  split; [by rewrite Hsame|]. exists []. by rewrite Htr, app_nil_r.
Qed.

Lemma settled_access {A : Type} (o : option A) : settled (access o).
Proof. destruct o; [apply settled_ret | apply settled_halt]. Qed.

Lemma settled_assert (b : bool) : settled (assert b).
Proof. destruct b; [apply settled_ret | apply settled_halt]. Qed.

Lemma settled_when (b : bool) (m : M unit) : settled m → settled (when b m).
Proof. destruct b; [done | intros _; apply settled_ret]. Qed.

Lemma settled_for_each {S : Type} (idx : list nat) (body : nat → S → M S)
    (s : S) :
  (∀ i s, settled (body i s)) → settled (for_each idx body s).
Proof.
  intros Hbody. revert s. induction idx as [|i idx IH]; intros s; simpl.
  - apply settled_ret.
  - apply settled_bind; [apply Hbody | apply IH].
Qed.

Lemma settled_nbp_send (m : nbp_message_type) :
  session_keeps_callback → settled (nbp_send m).
Proof.
  intros [Hsend _] w Hcb. unfold nbp_send. specialize (Hsend (nbp w) m).
  destruct (nbp_send_impl (nbp w) m) as [ok d]. simpl in *.
  split; [congruence|]. exists [NbpSend m]. split; [done|].
  by repeat constructor.
Qed.

Lemma settled_nbp_control_fet (fet : Z) (connect : bool) :
  session_keeps_callback → settled (nbp_control_fet fet connect).
Proof.
  intros [_ Hctl] w Hcb. unfold nbp_control_fet.
  specialize (Hctl (nbp w) fet connect).
  destruct (nbp_control_fet_impl (nbp w) fet connect) as [ok d]. simpl in *.
  split; [congruence|]. eexists [_]. split; [done|]. by repeat constructor.
Qed.

Lemma settled_zmq_recv_protobuf (s : socket) : settled (zmq_recv_protobuf s).
Proof.
  intros w Hcb. unfold zmq_recv_protobuf.
  destruct (inbox w s) as [|[data|] rest]; simpl; (split; [done|]);
    first [ exists []; by rewrite app_nil_r
          | eexists [_]; split; [done|]; by repeat constructor ].
Qed.

Lemma settled_handle_req (s : socket) :
  session_keeps_callback → settled (handle_req s).
Proof.
  intros Hkeep. unfold handle_req, set_wire_item, zmq_send_protobuf.
  apply settled_bind; [apply settled_zmq_recv_protobuf|intros req].
  apply settled_bind; [apply settled_access|intros req'].
  apply settled_bind.
  - apply settled_for_each. intros i blk.
    apply settled_bind; [apply settled_access|intros item].
    apply settled_bind; [by apply settled_nbp_control_fet|intros ok].
    apply settled_access.
  - intros blk. apply settled_bind; [apply settled_access|intros packed].
    by apply settled_log.
Qed.

Lemma settled_got_new_subscriber (s : socket) :
  settled (got_new_subscriber s).
Proof.
  intros w Hcb.
  assert (∀ c, outcome_world (got_new_subscriber s w) = w ∨
               (∃ rest, outcome_world (got_new_subscriber s w)
                        = log_call c (set_inbox s rest w)) ∨
               (∃ rest, outcome_world (got_new_subscriber s w)
                        = outcome_world
                            (send_snapshot
                               (log_call (ZmqMsgRecv s) (set_inbox s rest w))))
               → c = ZmqMsgRecv s →
          cb_msg_fet_presence (nbp (outcome_world (got_new_subscriber s w)))
          = None
          ∧ ∃ tr, trace (outcome_world (got_new_subscriber s w))
                  = trace w ++ tr
                  ∧ Forall (λ c, is_bind c = false) tr) as Hcases.
  { intros c [->|[[rest ->]|[rest ->]]] ->.
    - split; [done|]. exists []. by rewrite app_nil_r.
    - split; [done|]. eexists [_]. split; [done|]. by repeat constructor.
    - rewrite send_snapshot_run. cbn [outcome_world nbp trace log_call set_inbox].
      split; [done|]. eexists. rewrite <- app_assoc. split; [done|].
      apply Forall_app. split; [by repeat constructor|].
      apply Forall_app. split; [|by repeat constructor].
      unfold fet_queries. apply Forall_fmap. by apply Forall_true. }
  apply (Hcases (ZmqMsgRecv s)); [|done].
  destruct (inbox w s) as [|[data|] rest] eqn:Hin.
  - left. unfold got_new_subscriber, mbind, M_bind, zmq_msg_recv.
    by rewrite Hin.
  - right. destruct data as [|b data].
    + left. exists rest.
      by rewrite (got_new_subscriber_ignore s w [] rest Hin
                    (or_introl eq_refl)).
    + destruct (Byte.byte_eq_dec b x00) as [->|Hb].
      * left. exists rest.
        by rewrite (got_new_subscriber_ignore s w _ rest Hin
                      (or_intror eq_refl)).
      * right. exists rest.
        by rewrite (got_new_subscriber_subscribe s w b data rest Hin Hb).
  - right. left. exists rest.
    unfold got_new_subscriber, mbind, M_bind, zmq_msg_recv.
    by rewrite Hin.
Qed.

Lemma settled_deliver_all (frames : list (timespec * nbp_frame)) :
  settled (deliver_all frames).
Proof.
  intros w Hcb.
  destruct (deliver_all_cleared frames w Hcb) as (tr & Htr & Hq & Hcb' & _).
  split; [done|]. exists tr. split; [done|].
  eapply Forall_impl; [exact Hq|]. by intros [].
Qed.

Lemma settled_nbp_read : settled nbp_read.
Proof.
  unfold nbp_read.
  apply settled_bind; [by apply settled_log|intros _].
  apply settled_bind; [apply settled_gets|intros frames].
  apply settled_bind; [by apply settled_set|intros _].
  apply settled_deliver_all.
Qed.

Lemma settled_main_turn (c : cycle) :
  session_keeps_callback → settled (main_turn c).
Proof.
  intros Hkeep. unfold main_turn, before_poll, dispatch, request_periodic.
  apply settled_bind.
  { apply settled_bind; [apply settled_gets|intros tmo].
    apply settled_bind; [by apply settled_set|intros _].
    apply settled_bind; [apply settled_gets|intros deadline].
    apply settled_bind; [apply settled_gets|intros tmo'].
    destruct (timespec_passed _ _ _) as [passed tmo''].
    apply settled_bind; [by apply settled_set|intros _].
    apply settled_when.
    apply settled_bind; [by apply settled_set|intros _].
    apply settled_bind; [by apply settled_nbp_send|intros _].
    apply settled_ret. }
  intros _. apply settled_bind; [apply settled_gets|intros tmo].
  apply settled_bind; [by apply settled_log|intros _].
  destruct (poll_rc c <=? 0); [apply settled_ret|].
  apply settled_bind; [apply settled_when, settled_nbp_read|intros _].
  apply settled_bind; [by apply settled_when, settled_handle_req|intros _].
  apply settled_when, settled_got_new_subscriber.
Qed.

Lemma settled_main_loop (cycles : list cycle) :
  session_keeps_callback → settled (main_loop cycles).
Proof.
  intros Hkeep. induction cycles as [|c cycles IH]; simpl.
  - apply settled_ret.
  - apply settled_bind; [by apply settled_main_turn | intros _; exact IH].
Qed.

Lemma main_setup_registers (w w' : world) :
  main_setup w = Done tt w' →
  cb_msg_fet_presence (nbp w') = Some reset_complete_fn
  ∧ cb_msg_weather (nbp w') = Some msg_weather_fn
  ∧ cb_msg_power_status (nbp w') = Some msg_power_status_fn
  ∧ Forall (λ c, ∀ ok, c ≠ ZmqBind (my_devid w) "events" my_zmq_publisher ok)
           (drop (length (trace w)) (trace w')).
Proof.
  unfold main_setup, nbp_send, fabdcfg_zmq_bind, assert. run.
  destruct (nbp_send_impl (nbp w) NBPM_RESET) as [[] d]; [|done].
  simpl. destruct (fabdcfg_zmq_bind_impl _ _ _ _); [|done].
  intros [= <-]. simpl. repeat split; try done.
  rewrite <- app_assoc, drop_app_length. by repeat constructor.
Qed.

(** C4.  With [reset_complete] registered as [main] registers it, and a
    session that leaves the callback pointer alone, the first
    fet-presence frame runs [reset_complete]: the pointer is cleared
    before anything else (the refresh is sent on the device with the
    pointer already null), then the line is logged, the periodic refresh
    is requested with the deadline set 30 s after the frame's time, and
    only then the publisher is bound; a failed bind aborts.  Whatever
    frames the session delivers afterwards, a second fet-presence frame
    among them, cause no further send to the device and no further bind
    and leave the deadline alone; and however many turns the loop runs
    afterwards, the pointer stays null and nothing is bound again. *)
Theorem reset_complete_fires_once (w : world) (now : timespec)
    (fet_bitmask : Z) :
  cb_msg_fet_presence (nbp w) = Some reset_complete_fn →
  session_keeps_callback →
  ∃ (w1 : world) (bound : bool),
    deliver now (FrameFetPresence fet_bitmask) w
    = (if bound then Done tt w1 else Stop Aborted w1)
    ∧ trace w1 = trace w
                 ++ [Applog LOG_INFO "Backplate reset complete" [];
                     NbpSend NBPM_REQ_PERIODIC;
                     ZmqBind (my_devid w) "events" my_zmq_publisher bound]
    ∧ nbp w1 = (nbp_send_impl (clear_cb_msg_fet_presence (nbp w))
                              NBPM_REQ_PERIODIC).2
    ∧ cb_msg_fet_presence (nbp w1) = None
    ∧ ts_next_periodic_req w1 = timespec_add_ms now 30000
    ∧ (∀ frames : list (timespec * nbp_frame),
         ∃ tr : list call,
           trace (outcome_world (deliver_all frames w1)) = trace w1 ++ tr
           ∧ Forall (λ c, quiet c = true) tr
           ∧ refreshes tr = 0%nat
           ∧ ts_next_periodic_req (outcome_world (deliver_all frames w1))
             = ts_next_periodic_req w1)
    ∧ (∀ cycles : list cycle,
         cb_msg_fet_presence (nbp (outcome_world (main_loop cycles w1))) = None
         ∧ ∃ tr : list call,
             trace (outcome_world (main_loop cycles w1)) = trace w1 ++ tr
             ∧ Forall (λ c, is_bind c = false) tr).
Proof.
  intros Hcb Hkeep.
  set (d1 := (nbp_send_impl (clear_cb_msg_fet_presence (nbp w))
                            NBPM_REQ_PERIODIC).2).
  set (tr1 := trace w ++ [Applog LOG_INFO "Backplate reset complete" [];
                          NbpSend NBPM_REQ_PERIODIC]).
  set (bound := fabdcfg_zmq_bind_impl tr1 (my_devid w) "events"
                                      my_zmq_publisher).
  exists (mk_world d1 (my_devid w) (timespec_add_ms now 30000) (ts_timeout w)
                   (device_rx w) (inbox w)
                   (tr1 ++ [ZmqBind (my_devid w) "events" my_zmq_publisher
                                    bound])),
         bound.
  assert (cb_msg_fet_presence d1 = None) as Hnone
    by (unfold d1; by rewrite (proj1 Hkeep)).
  split; [|split; [|split; [|split; [|split; [|split]]]]]; try done.
  - unfold deliver. run. rewrite Hcb.
    unfold invoke, reset_complete, request_periodic, nbp_send,
           fabdcfg_zmq_bind, assert, periodic_req_interval.
    run. cbn [nbp set_nbp set_ts_next_periodic_req log_call trace my_devid].
    destruct (nbp_send_impl (clear_cb_msg_fet_presence (nbp w))
                            NBPM_REQ_PERIODIC) as [sent d] eqn:Hsend.
    unfold bound, tr1, d1. rewrite ?Hsend.
    cbn [nbp set_nbp set_ts_next_periodic_req log_call trace my_devid
         ts_next_periodic_req ts_timeout device_rx inbox snd].
    rewrite <- !app_assoc. simpl.
    destruct (fabdcfg_zmq_bind_impl _ _ _ _);
      unfold log_call, set_nbp, set_ts_next_periodic_req; simpl;
      by rewrite <- !app_assoc.
  - unfold tr1. simpl. by rewrite <- app_assoc.
  - intros frames.
    match goal with
    | |- context [deliver_all frames ?w1] =>
        destruct (deliver_all_cleared frames w1 Hnone)
          as (tr & Htr & Hq & _ & Hts)
    end.
    exists tr. split; [exact Htr|]. split; [exact Hq|]. split; [|exact Hts].
    clear Htr. unfold refreshes.
    induction Hq as [|c tr Hc _ IH]; [done|].
    destruct c as [| [] | | | | | | | |]; try done.
  - intros cycles. by apply (settled_main_loop cycles Hkeep).
Qed.

(** ** The loop *)

Lemma grows_ret {A : Type} (a : A) : grows (mret a : M A).
Proof. intros w. exists []. simpl. by rewrite app_nil_r. Qed.

Lemma grows_halt {A : Type} (why : stop) : grows (halt why : M A).
Proof. intros w. exists []. simpl. by rewrite app_nil_r. Qed.

Lemma grows_bind {A B : Type} (m : M A) (f : A → M B) :
  grows m → (∀ a, grows (f a)) → grows (m ≫= f).
Proof.
  intros Hm Hf w. rewrite outcome_world_bind.
  destruct (Hm w) as [tr Htr]. destruct (m w) as [a w1|why w1]; simpl in *.
  - destruct (Hf a w1) as [tr' Htr'].
    exists (tr ++ tr'). by rewrite Htr', Htr, <- app_assoc.
  - by exists tr.
Qed.

Lemma grows_modify (f : world → world) :
  (∀ w, ∃ tr, trace (f w) = trace w ++ tr) → grows (modify f).
Proof. intros Hf w. apply Hf. Qed.

Lemma grows_gets {A : Type} (f : world → A) : grows (gets f).
Proof. intros w. exists []. simpl. by rewrite app_nil_r. Qed.

Lemma grows_log (c : call) : grows (modify (log_call c)).
Proof. intros w. by exists [c]. Qed.

Lemma grows_access {A : Type} (o : option A) : grows (access o).
Proof. destruct o; [apply grows_ret | apply grows_halt]. Qed.

Lemma grows_assert (b : bool) : grows (assert b).
Proof. destruct b; [apply grows_ret | apply grows_halt]. Qed.

Lemma grows_when (b : bool) (m : M unit) : grows m → grows (when b m).
Proof. destruct b; [done | intros _; apply grows_ret]. Qed.

Lemma grows_for_each {S : Type} (idx : list nat) (body : nat → S → M S)
    (s : S) :
  (∀ i s, grows (body i s)) → grows (for_each idx body s).
Proof.
  intros Hbody. revert s. induction idx as [|i idx IH]; intros s; simpl.
  - apply grows_ret.
  - apply grows_bind; [apply Hbody | apply IH].
Qed.

Lemma grows_nbp_send (m : nbp_message_type) : grows (nbp_send m).
Proof.
  intros w. unfold nbp_send.
  destruct (nbp_send_impl (nbp w) m) as [ok d]. by exists [NbpSend m].
Qed.

Lemma grows_nbp_control_fet (fet : Z) (connect : bool) :
  grows (nbp_control_fet fet connect).
Proof.
  intros w. unfold nbp_control_fet.
  destruct (nbp_control_fet_impl (nbp w) fet connect) as [ok d].
  by eexists [_].
Qed.

Lemma grows_fabdcfg_zmq_bind (name : string) (s : socket) :
  grows (fabdcfg_zmq_bind name s).
Proof. intros w. by eexists [_]. Qed.

Lemma grows_zmq_msg_recv (s : socket) : grows (zmq_msg_recv s).
Proof.
  intros w. unfold zmq_msg_recv.
  destruct (inbox w s) as [|[data|] rest]; simpl;
    first [by eexists [_] | exists []; by rewrite app_nil_r].
Qed.

Lemma grows_zmq_recv_protobuf (s : socket) : grows (zmq_recv_protobuf s).
Proof.
  intros w. unfold zmq_recv_protobuf.
  destruct (inbox w s) as [|[data|] rest]; simpl;
    first [by eexists [_] | exists []; by rewrite app_nil_r].
Qed.

Lemma grows_set (f : world → world) :
  (∀ w, trace (f w) = trace w) → grows (modify f).
Proof.
  intros Hf. apply grows_modify. intros w. exists [].
  by rewrite Hf, app_nil_r.
Qed.

Create HintDb grows.

#[local] Hint Resolve grows_ret grows_halt grows_gets grows_log grows_access
  grows_assert grows_when grows_nbp_send grows_nbp_control_fet
  grows_fabdcfg_zmq_bind grows_zmq_msg_recv grows_zmq_recv_protobuf
  : grows.

Ltac grows_step :=
  first [ apply grows_bind; [|intros ?]
        | apply grows_when
        | apply grows_for_each; intros ? ?
        | apply grows_set; by intros []
        | solve [auto with grows] ].

Lemma grows_request_periodic (now : timespec) : grows (request_periodic now).
Proof. unfold request_periodic. repeat grows_step. Qed.

Lemma grows_reset_complete (now : timespec) (mask : Z) :
  grows (reset_complete now mask).
Proof.
  unfold reset_complete. repeat grows_step.
  all: first [apply grows_request_periodic | apply grows_log].
Qed.

Lemma grows_handle_req (s : socket) : grows (handle_req s).
Proof.
  unfold handle_req, set_wire_item, zmq_send_protobuf. repeat grows_step.
Qed.

Lemma grows_got_new_subscriber (s : socket) : grows (got_new_subscriber s).
Proof.
  unfold got_new_subscriber. apply grows_bind; [auto with grows|].
  intros [data rc]. apply grows_bind; [auto with grows|]. intros _.
  case_bool_decide; [auto with grows|]. destruct data; [auto with grows|].
  destruct (Byte.eqb _ _); [auto with grows|].
  intros w. rewrite send_snapshot_run. by eexists.
Qed.

Lemma grows_invoke (cb : option handler) (expected : handler) (m : M unit) :
  grows m → grows (invoke cb expected m).
Proof.
  intros Hm. unfold invoke.
  destruct cb as [h|]; [|auto with grows].
  destruct h, expected; auto with grows.
Qed.

Lemma grows_deliver (now : timespec) (f : nbp_frame) : grows (deliver now f).
Proof.
  destruct f; unfold deliver.
  all: repeat first [ apply grows_invoke | grows_step ].
  all: first [ apply grows_reset_complete
             | unfold msg_log, msg_weather, msg_power_status, applog,
                      zmq_send_protobuf; repeat grows_step ].
Qed.

Lemma grows_nbp_read : grows nbp_read.
Proof.
  unfold nbp_read. repeat grows_step.
  match goal with |- grows (deliver_all ?l) => induction l as [|[now f] l IH] end.
  - apply grows_ret.
  - simpl. apply grows_bind; [apply grows_deliver | intros _; apply IH].
Qed.

Lemma grows_dispatch (c : cycle) : grows (dispatch c).
Proof.
  unfold dispatch.
  apply grows_bind; [apply grows_when, grows_nbp_read|intros _].
  apply grows_bind; [apply grows_when, grows_handle_req|intros _].
  apply grows_when, grows_got_new_subscriber.
Qed.

Lemma before_poll_run (c : cycle) (w : world) :
  before_poll c w
  = Done tt
      (let r := timespec_passed (ts_next_periodic_req w) (clock c)
                                (timespec_clear (ts_timeout w)) in
       if r.1
       then mk_world (nbp_send_impl (nbp w) NBPM_REQ_PERIODIC).2 (my_devid w)
                     (timespec_add_ms (clock c) 30000) r.2
                     (device_rx w) (inbox w)
                     (trace w ++ [NbpSend NBPM_REQ_PERIODIC])
       else mk_world (nbp w) (my_devid w) (ts_next_periodic_req w) r.2
                     (device_rx w) (inbox w) (trace w)).
Proof.
  unfold before_poll. run.
  cbn [set_ts_timeout ts_next_periodic_req ts_timeout].
  destruct (timespec_passed _ _ _) as [[] tmo]; simpl; [|done].
  unfold request_periodic, nbp_send. run. simpl.
  by destruct (nbp_send_impl (nbp w) NBPM_REQ_PERIODIC).
Qed.

Lemma main_turn_run (c : cycle) (w w0 : world) :
  before_poll c w = Done tt w0 →
  main_turn c w
  = (if poll_rc c <=? 0 then mret tt else dispatch c)
      (log_call (ZmqPoll (timespec_to_timeout_ms (clock c) (ts_timeout w0)))
                w0).
Proof. intros Hpre. unfold main_turn. run. by rewrite Hpre. Qed.

(** C5, as the code has it.  In a turn whose deadline has passed at the
    clock reading, one periodic refresh is sent to the device before
    [zmq_poll] is called, and the deadline becomes the clock reading plus
    30 s, whatever it was before.  In a turn whose deadline has not
    passed, nothing is sent before [zmq_poll] is called and the deadline
    stays.  What the handlers dispatched after the poll send is their
    own. *)
Theorem periodic_refresh_before_poll (c : cycle) (w : world) (passed : bool)
    (tmo : timespec) :
  timespec_passed (ts_next_periodic_req w) (clock c)
                  (timespec_clear (ts_timeout w)) = (passed, tmo) →
  ∃ (w0 : world) (after : list call),
    before_poll c w = Done tt w0
    ∧ trace w0
      = trace w ++ (if passed then [NbpSend NBPM_REQ_PERIODIC] else [])
    ∧ ts_next_periodic_req w0
      = (if passed then timespec_add_ms (clock c) 30000
         else ts_next_periodic_req w)
    ∧ trace (outcome_world (main_turn c w))
      = trace w0 ++ [ZmqPoll (timespec_to_timeout_ms (clock c) tmo)] ++ after.
Proof.
  intros Hpassed. pose proof (before_poll_run c w) as Hpre.
  rewrite Hpassed in Hpre. cbn [fst snd] in Hpre.
  eexists. 
  assert (∃ after, trace (outcome_world (main_turn c w))
                   = trace (outcome_world (before_poll c w))
                     ++ [ZmqPoll (timespec_to_timeout_ms (clock c) tmo)]
                     ++ after) as [after Hafter].
  { rewrite (main_turn_run c w _ Hpre), Hpre. cbn [outcome_world].
    assert (grows (if poll_rc c <=? 0 then mret tt else dispatch c)) as Hg
      by (destruct (poll_rc c <=? 0); [apply grows_ret|apply grows_dispatch]).
    match goal with
    | |- context [outcome_world (_ ?w1)] => destruct (Hg w1) as [after Hafter]
    end.
    exists after. rewrite Hafter. destruct passed; simpl;
      by rewrite <- ?app_assoc. }
  exists after. split; [exact Hpre|].
  rewrite Hafter, Hpre. cbn [outcome_world].
  destruct passed; simpl; by rewrite ?app_nil_r.
Qed.

(** C9.  A turn in which [zmq_poll] returns zero or a negative count
    completes without any handler being dispatched: after the deadline
    check and the poll nothing is received or read, whatever the poll
    items say, nothing waiting on the sockets or on the link is consumed,
    the turn does not stop the process, and the loop goes on with the
    next turn from the world the poll left. *)
Theorem idle_poll_next_turn (c : cycle) (w : world) (cycles : list cycle) :
  poll_rc c ≤ 0 →
  ∃ w' : world,
    main_turn c w = Done tt w'
    ∧ (let r := timespec_passed (ts_next_periodic_req w) (clock c)
                                (timespec_clear (ts_timeout w)) in
       trace w'
       = trace w ++ (if r.1 then [NbpSend NBPM_REQ_PERIODIC] else [])
                 ++ [ZmqPoll (timespec_to_timeout_ms (clock c) r.2)])
    ∧ Forall (λ call, is_intake call = false)
             (drop (length (trace w)) (trace w'))
    ∧ inbox w' = inbox w
    ∧ device_rx w' = device_rx w
    ∧ main_loop (c :: cycles) w = main_loop cycles w'.
Proof.
  intros Hrc. pose proof (before_poll_run c w) as Hpre.
  pose proof (main_turn_run c w _ Hpre) as Hturn.
  assert ((poll_rc c <=? 0) = true) as Hle by (by apply Z.leb_le).
  rewrite Hle in Hturn. eexists. split; [exact Hturn|].
  cbn zeta.
  destruct (timespec_passed _ _ _) as [[] tmo]; cbn [fst snd trace log_call].
  - split; [simpl; by rewrite <- app_assoc|].
    split; [rewrite <- app_assoc, drop_app_length; by repeat constructor|].
    split; [done|]. split; [done|].
    simpl main_loop. by rewrite (bind_done _ _ _ _ _ Hturn).
  - split; [done|].
    split; [rewrite drop_app_length; by repeat constructor|].
    split; [done|]. split; [done|].
    simpl main_loop. by rewrite (bind_done _ _ _ _ _ Hturn).
Qed.

End Properties.

(** * The rest of main.c *)

Section Further.

Context `{Platform}.

Abbreviation device := (nbp_device nbp_private).

Ltac steps :=
  unfold mbind, M_bind, mret, M_ret, applog, zmq_send_protobuf, modify, gets,
         halt, when;
  cbn [outcome_world].

(** ** What is published *)

Lemma published_app (l1 l2 : list call) :
  published (l1 ++ l2) = published l1 ++ published l2.
Proof. unfold published. apply omap_app. Qed.

Lemma published_queries (idx : list nat) : published (fet_queries idx) = [].
Proof. by induction idx. Qed.


(** ** The callbacks registered by [main] *)

(** X1.  None of the four callbacks that translate device traffic, the
    log, weather and power-status callbacks and the wire callback, ever
    stops the process, sends to the device, binds, or touches the device
    structure, the deadline, the link or the sockets: each one completes
    and adds only log lines and events on the publisher. *)
Theorem callbacks_only_report (now : timespec) (msg : string) (t h : Z)
    (state flags px0 u1 u2 u3 vi_cV vo_mV vb pins wires : Z) (fet : Z)
    (connect : bool) :
  only_reports (msg_log now msg)
  ∧ only_reports (msg_weather now t h)
  ∧ only_reports (msg_power_status now state flags px0 u1 u2 u3 vi_cV vo_mV
                                   vb pins wires)
  ∧ only_reports (my_nbp_control_fet_cb fet connect).
Proof.
  repeat split; intros w.
  - eexists [_]. split; [reflexivity | by repeat constructor].
  - unfold msg_weather. steps. eexists [_; _].
    split; [unfold log_call; simpl; by rewrite <- app_assoc
           |by repeat constructor].
  - unfold msg_power_status. steps. eexists [_; _].
    split; [unfold log_call; simpl; by rewrite <- app_assoc
           |by repeat constructor].
  - unfold my_nbp_control_fet_cb. steps. eexists [_; _].
    split; [unfold log_call; simpl; by rewrite <- app_assoc
           |by repeat constructor].
Qed.

(** X2.  The wire callback publishes one event that has no weather and no
    battery record and whose wire-change list is the single wire it was
    called for, with the connect flag it was called with; the one-cell
    pointer array it allocates is written and read within its bounds. *)
Theorem my_nbp_control_fet_cb_event (fet : Z) (connect : bool) (w : world) :
  ∃ w' : world,
    my_nbp_control_fet_cb fet connect w = Done tt w'
    ∧ trace w'
      = trace w
        ++ [Applog LOG_INFO "Setting FET %u to %d"
                   [LInt fet; LInt (if connect then 1 else 0)];
            ZmqSendProtobuf my_zmq_publisher
              (pb_event (PbEvent.mk None None
                           [PbSetHVACWireRequest.mk fet connect]))]
    ∧ published (trace w')
      = published (trace w)
        ++ [PbEvent.mk None None [PbSetHVACWireRequest.mk fet connect]].
Proof.
  unfold my_nbp_control_fet_cb. steps. eexists. split; [reflexivity|].
  split.
  - simpl. by rewrite <- app_assoc.
  - simpl. rewrite !published_app. simpl. by rewrite app_nil_r.
Qed.

(** X3.  For a 16-bit temperature the Fahrenheit value of the weather log
    line is computed without leaving the range of [int32_t] and without
    rounding: it is 18 times the temperature plus 32000, in thousandths of
    a degree.  The six numbers the handler logs are then the plain
    quotients and remainders: whole and hundredths of a degree Celsius,
    whole and thousandths of a degree Fahrenheit, whole and tenths of a
    percent. *)
Theorem weather_log_exact (now : timespec) (t h : Z) (w : world) :
  0 ≤ t < 2 ^ 16 →
  0 ≤ h < 2 ^ 16 →
  - 2 ^ 31 ≤ t * 90 < 2 ^ 31
  ∧ - 2 ^ 31 ≤ Z.quot (t * 90) 5 + 32000 < 2 ^ 31
  ∧ Z.quot (t * 90) 5 + 32000 = 18 * t + 32000
  ∧ ∃ w' : world,
      msg_weather now t h w = Done tt w'
      ∧ trace w'
        = trace w
          ++ [Applog LOG_INFO
                "Temperature %3d.%02d C (%4d.%03d F)    Humidity: %d.%d%%"
                [LInt (t / 100); LInt (t mod 100);
                 LInt ((18 * t + 32000) / 1000);
                 LInt ((18 * t + 32000) mod 1000);
                 LInt (h / 10); LInt (h mod 10)];
              ZmqSendProtobuf my_zmq_publisher (pb_event (weather_only t h))].
Proof.
  intros Ht Hh.
  assert (Z.quot (t * 90) 5 = 18 * t) as Hq.
  { replace (t * 90) with (18 * t * 5) by lia. apply Z.quot_mul. lia. }
  split; [lia|]. split; [lia|]. split; [lia|].
  unfold msg_weather. steps. eexists. split; [reflexivity|].
  cbn [trace log_call]. rewrite Hq.
  rewrite !Z.quot_div_nonneg, !Z.rem_mod_nonneg by lia.
  by rewrite <- app_assoc.
Qed.

(** ** The snapshot builder, at its edges *)

(** X4.  When the receive of the notification fails, the assertion of line
    120 stops the process: nothing is queried and nothing is published. *)
Theorem got_new_subscriber_recv_failure (s : socket) (w : world)
    (rest : list (option (list byte))) :
  inbox w s = None :: rest →
  ∃ w' : world,
    got_new_subscriber s w = Stop Aborted w'
    ∧ trace w' = trace w ++ [ZmqMsgRecv s]
    ∧ nbp w' = nbp w.
Proof.
  intros Hin. unfold got_new_subscriber, mbind, M_bind, zmq_msg_recv.
  rewrite Hin. by eexists.
Qed.

(** What a notification does, in full. *)
Lemma got_new_subscriber_run (s : socket) (w : world) (data : list byte)
    (rest : list (option (list byte))) :
  inbox w s = Some data :: rest →
  got_new_subscriber s w
  = Done tt
      (mk_world (nbp w) (my_devid w) (ts_next_periodic_req w) (ts_timeout w)
         (device_rx w) (λ s', if decide (s' = s) then rest else inbox w s')
         (trace w ++ [ZmqMsgRecv s]
            ++ match head data with
               | None => []
               | Some b =>
                   if Byte.eqb b x00 then []
                   else fet_queries (seq 0 PB_HVACWIRES___COUNT)
                        ++ [ZmqSendProtobuf my_zmq_publisher
                              (pb_event (snapshot_event (nbp w)))]
               end)).
Proof.
  intros Hin. destruct data as [|b data].
  - by rewrite (got_new_subscriber_ignore s w [] rest Hin (or_introl eq_refl)).
  - cbn [head]. destruct (Byte.byte_eq_dec b x00) as [->|Hb].
    + by rewrite (got_new_subscriber_ignore s w _ rest Hin (or_intror eq_refl)).
    + rewrite (byte_nonzero b Hb).
      rewrite (got_new_subscriber_subscribe s w b data rest Hin Hb).
      rewrite send_snapshot_run.
      unfold log_call, set_inbox. simpl. by rewrite <- !app_assoc.
Qed.

(** X5.  The snapshot depends on the device structure alone: two
    subscriptions, whatever their first byte (other than zero), whatever
    topic bytes follow it and whatever socket they come in on, publish the
    same event when the device structure is the same. *)
Theorem snapshot_ignores_topic (s1 s2 : socket) (w1 w2 : world)
    (b1 b2 : byte) (topic1 topic2 : list byte)
    (rest1 rest2 : list (option (list byte))) :
  inbox w1 s1 = Some (b1 :: topic1) :: rest1 →
  inbox w2 s2 = Some (b2 :: topic2) :: rest2 →
  b1 ≠ x00 →
  b2 ≠ x00 →
  nbp w1 = nbp w2 →
  ∃ (w1' w2' : world) (ev : PbEvent.t),
    got_new_subscriber s1 w1 = Done tt w1'
    ∧ got_new_subscriber s2 w2 = Done tt w2'
    ∧ published (trace w1') = published (trace w1) ++ [ev]
    ∧ published (trace w2') = published (trace w2) ++ [ev].
Proof.
  intros Hin1 Hin2 Hb1 Hb2 Hnbp.
  eexists _, _, (snapshot_event (nbp w1)).
  split; [exact (got_new_subscriber_run s1 w1 _ rest1 Hin1)|].
  split; [exact (got_new_subscriber_run s2 w2 _ rest2 Hin2)|].
  cbn [trace head]. rewrite (byte_nonzero b1 Hb1), (byte_nonzero b2 Hb2), Hnbp.
  rewrite !published_app, !published_queries. simpl.
  by rewrite ?app_nil_r.
Qed.

(** X6.  Handling a notification, subscription or not, reads the device
    structure and writes none of it: the device structure, the deadline
    and the frames on the link are as before, one message is gone from the
    socket it came in on and the other socket is untouched, and nothing is
    sent to the device or bound. *)
Theorem got_new_subscriber_reads_only (s : socket) (w : world)
    (data : list byte) (rest : list (option (list byte))) :
  inbox w s = Some data :: rest →
  ∃ (w' : world) (tr : list call),
    got_new_subscriber s w = Done tt w'
    ∧ nbp w' = nbp w
    ∧ ts_next_periodic_req w' = ts_next_periodic_req w
    ∧ device_rx w' = device_rx w
    ∧ inbox w' s = rest
    ∧ (∀ s' : socket, s' ≠ s → inbox w' s' = inbox w s')
    ∧ trace w' = trace w ++ tr
    ∧ Forall (λ c, quiet c = true) tr.
Proof.
  intros Hin. eexists _, _.
  split; [exact (got_new_subscriber_run s w data rest Hin)|].
  cbn [nbp ts_next_periodic_req device_rx inbox trace].
  split; [done|]. split; [done|]. split; [done|].
  split; [by rewrite decide_True|].
  split; [by intros s' Hs'; rewrite decide_False|].
  split; [done|].
  constructor; [done|].
  destruct (head data) as [b|]; [|constructor].
  destruct (Byte.eqb b x00); [constructor|].
  apply Forall_app. split; [|by repeat constructor].
  unfold fet_queries. apply Forall_fmap. by apply Forall_true.
Qed.

(** ** The control request handler, at its edges *)



(** X8.  A message on the control socket that does not decode as a request
    stops the handler at line 107, right after the receive: no wire is
    set and no reply is sent. *)
Theorem handle_req_undecodable (s : socket) (w : world) (data : list byte)
    (rest : list (option (list byte))) :
  inbox w s = Some data :: rest →
  pb_request__unpack data = None →
  ∃ (why : stop) (w' : world),
    handle_req s w = Stop why w'
    ∧ trace w' = trace w ++ [ZmqRecvProtobuf s]
    ∧ nbp w' = nbp w.
Proof.
  intros Hin Hreq. unfold handle_req, mbind, M_bind, zmq_recv_protobuf.
  rewrite Hin, Hreq. by eexists _, _.
Qed.

(** ** [main], before the loop *)


(** ** Bit 0 of [revents] *)

Lemma pollin_bit (r : Z) : truthy (Z.land r ZMQ_POLLIN) = Z.testbit r 0.
Proof.
  unfold truthy, ZMQ_POLLIN. change 1 with (Z.ones 1).
  rewrite Z.land_ones by lia. rewrite Z.bit0_odd.
  change (2 ^ 1) with 2. rewrite Zmod_odd.
  by destruct (Z.odd r).
Qed.

(** X12.  After the poll a source is serviced only for ZMQ_POLLIN: when
    bit 0 is clear in all three [revents], whatever other flags the poll
    set, nothing is dispatched and the world is left as it is. *)
Theorem dispatch_needs_pollin (c : cycle) (w : world) :
  Z.testbit (revents0 c) 0 = false →
  Z.testbit (revents1 c) 0 = false →
  Z.testbit (revents2 c) 0 = false →
  dispatch c w = Done tt w.
Proof.
  intros H0 H1 H2. unfold dispatch. rewrite !pollin_bit, H0, H1, H2.
  reflexivity.
Qed.

Lemma nbp_read_run (w : world) :
  nbp_read w
  = deliver_all (device_rx w) (set_device_rx [] (log_call NbpRead w)).
Proof. unfold nbp_read. steps. reflexivity. Qed.


(** ** The publisher stays unbound until the backplate reports *)

Lemma keeps_ret {A : Type} (I : world → Prop) (P : call → Prop) (a : A) :
  keeps I P (mret a : M A).
Proof.
  intros w Hw. split; [done|]. exists []. simpl. by rewrite app_nil_r.
Qed.

Lemma keeps_halt {A : Type} (I : world → Prop) (P : call → Prop) (why : stop) :
  keeps I P (halt why : M A).
Proof.
  intros w Hw. split; [done|]. exists []. simpl. by rewrite app_nil_r.
Qed.

Lemma keeps_bind {A B : Type} (I : world → Prop) (P : call → Prop)
    (m : M A) (f : A → M B) :
  keeps I P m → (∀ a, keeps I P (f a)) → keeps I P (m ≫= f).
Proof.
  intros Hm Hf w Hw. rewrite outcome_world_bind.
  destruct (Hm w Hw) as [Hw1 (tr & Htr & Hq)].
  destruct (m w) as [a w1|why w1]; simpl in *.
  - destruct (Hf a w1 Hw1) as [Hw2 (tr' & Htr' & Hq')].
    split; [done|]. exists (tr ++ tr').
    rewrite Htr', Htr, <- app_assoc. split; [done|]. by apply Forall_app.
  - split; [done|]. by exists tr.
Qed.

Lemma keeps_gets {A : Type} (I : world → Prop) (P : call → Prop)
    (f : world → A) :
  keeps I P (gets f).
Proof.
  intros w Hw. split; [done|]. exists []. simpl. by rewrite app_nil_r.
Qed.

Lemma keeps_access {A : Type} (I : world → Prop) (P : call → Prop)
    (o : option A) :
  keeps I P (access o).
Proof. destruct o; [apply keeps_ret | apply keeps_halt]. Qed.

Lemma keeps_assert (I : world → Prop) (P : call → Prop) (b : bool) :
  keeps I P (assert b).
Proof. destruct b; [apply keeps_ret | apply keeps_halt]. Qed.

Lemma keeps_when (I : world → Prop) (P : call → Prop) (b : bool) (m : M unit) :
  keeps I P m → keeps I P (when b m).
Proof. destruct b; [done | intros _; apply keeps_ret]. Qed.

Lemma keeps_for_each {S : Type} (I : world → Prop) (P : call → Prop)
    (idx : list nat) (body : nat → S → M S) (s : S) :
  (∀ i s, keeps I P (body i s)) → keeps I P (for_each idx body s).
Proof.
  intros Hbody. revert s. induction idx as [|i idx IH]; intros s; simpl.
  - apply keeps_ret.
  - apply keeps_bind; [apply Hbody | apply IH].
Qed.

(** Steps that leave the link alone. *)
Lemma unbound_set (f : world → world) :
  (∀ w, device_rx (f w) = device_rx w ∧ trace (f w) = trace w) →
  keeps link_without_presence binds_nothing (modify f).
Proof.
  intros Hf w Hw. destruct (Hf w) as [Hrx Htr]. simpl.
  unfold link_without_presence in *. rewrite Hrx. split; [done|].
  exists []. by rewrite Htr, app_nil_r.
Qed.

Lemma unbound_log (c : call) :
  is_bind c = false →
  keeps link_without_presence binds_nothing (modify (log_call c)).
Proof.
  intros Hc w Hw. split; [done|]. exists [c]. split; [done|].
  by repeat constructor.
Qed.

Lemma unbound_nbp_send (m : nbp_message_type) :
  keeps link_without_presence binds_nothing (nbp_send m).
Proof.
  intros w Hw. unfold nbp_send.
  destruct (nbp_send_impl (nbp w) m) as [ok d]. split; [done|].
  exists [NbpSend m]. split; [done|]. by repeat constructor.
Qed.

Lemma unbound_nbp_control_fet (fet : Z) (connect : bool) :
  keeps link_without_presence binds_nothing (nbp_control_fet fet connect).
Proof.
  intros w Hw. unfold nbp_control_fet.
  destruct (nbp_control_fet_impl (nbp w) fet connect) as [ok d].
  split; [done|]. eexists [_]. split; [done|]. by repeat constructor.
Qed.

Lemma unbound_zmq_recv_protobuf (s : socket) :
  keeps link_without_presence binds_nothing (zmq_recv_protobuf s).
Proof.
  intros w Hw. unfold zmq_recv_protobuf.
  destruct (inbox w s) as [|[data|] rest]; simpl; (split; [done|]);
    first [ exists []; by rewrite app_nil_r
          | eexists [_]; split; [done|]; by repeat constructor ].
Qed.

Lemma unbound_zmq_msg_recv (s : socket) :
  keeps link_without_presence binds_nothing (zmq_msg_recv s).
Proof.
  intros w Hw. unfold zmq_msg_recv.
  destruct (inbox w s) as [|[data|] rest]; simpl; (split; [done|]);
    first [ exists []; by rewrite app_nil_r
          | eexists [_]; split; [done|]; by repeat constructor ].
Qed.

Lemma unbound_send_snapshot :
  keeps link_without_presence binds_nothing send_snapshot.
Proof.
  intros w Hw. rewrite send_snapshot_run. split; [done|].
  eexists. split; [reflexivity|]. apply Forall_app.
  split; [|by repeat constructor].
  unfold fet_queries. apply Forall_fmap. by apply Forall_true.
Qed.

Lemma unbound_handle_req (s : socket) :
  keeps link_without_presence binds_nothing (handle_req s).
Proof.
  unfold handle_req, set_wire_item, zmq_send_protobuf.
  apply keeps_bind; [apply unbound_zmq_recv_protobuf|intros req].
  apply keeps_bind; [apply keeps_access|intros req'].
  apply keeps_bind.
  - apply keeps_for_each. intros i blk.
    apply keeps_bind; [apply keeps_access|intros item].
    apply keeps_bind; [apply unbound_nbp_control_fet|intros ok].
    apply keeps_access.
  - intros blk. apply keeps_bind; [apply keeps_access|intros packed].
    by apply unbound_log.
Qed.

Lemma unbound_got_new_subscriber (s : socket) :
  keeps link_without_presence binds_nothing (got_new_subscriber s).
Proof.
  unfold got_new_subscriber.
  apply keeps_bind; [apply unbound_zmq_msg_recv|intros [data rc]].
  apply keeps_bind; [apply keeps_assert|intros _].
  case_bool_decide; [apply keeps_ret|].
  destruct data as [|b data]; [apply keeps_halt|].
  destruct (Byte.eqb b x00); [apply keeps_ret | apply unbound_send_snapshot].
Qed.

Lemma unbound_invoke (cb : option handler) (expected : handler) (m : M unit) :
  keeps link_without_presence binds_nothing m →
  keeps link_without_presence binds_nothing (invoke cb expected m).
Proof.
  intros Hm. unfold invoke. destruct cb as [h|]; [|apply keeps_ret].
  destruct h, expected; first [exact Hm | apply keeps_halt].
Qed.

Lemma unbound_deliver (now : timespec) (f : nbp_frame) :
  is_presence f = false →
  keeps link_without_presence binds_nothing (deliver now f).
Proof.
  intros Hf. destruct f; [| | |done]; unfold deliver.
  - apply keeps_bind; [apply keeps_gets|intros cb].
    apply unbound_invoke. by apply unbound_log.
  - apply keeps_bind; [by apply unbound_set|intros _].
    apply keeps_bind; [apply keeps_gets|intros cb].
    apply unbound_invoke. unfold msg_weather, applog, zmq_send_protobuf.
    apply keeps_bind; [by apply unbound_log|intros _]. by apply unbound_log.
  - apply keeps_bind; [by apply unbound_set|intros _].
    apply keeps_bind; [apply keeps_gets|intros cb].
    apply unbound_invoke. unfold msg_power_status, applog, zmq_send_protobuf.
    apply keeps_bind; [by apply unbound_log|intros _]. by apply unbound_log.
Qed.

Lemma unbound_deliver_all (frames : list (timespec * nbp_frame)) :
  no_presence frames →
  keeps link_without_presence binds_nothing (deliver_all frames).
Proof.
  intros Hframes. induction Hframes as [|[now f] frames Hf _ IH]; simpl.
  - apply keeps_ret.
  - apply keeps_bind; [by apply unbound_deliver | intros _; exact IH].
Qed.

Lemma unbound_nbp_read :
  keeps link_without_presence binds_nothing nbp_read.
Proof.
  intros w Hw. rewrite nbp_read_run.
  destruct (unbound_deliver_all (device_rx w) Hw
              (set_device_rx [] (log_call NbpRead w)))
    as [Hlink (tr & Htr & Hq)]; [constructor|].
  split; [done|]. exists (NbpRead :: tr). rewrite Htr. simpl.
  rewrite <- app_assoc. split; [done|]. by constructor.
Qed.

Lemma unbound_main_turn (c : cycle) :
  keeps link_without_presence binds_nothing (main_turn c).
Proof.
  unfold main_turn, before_poll, dispatch, request_periodic.
  apply keeps_bind.
  { apply keeps_bind; [apply keeps_gets|intros tmo].
    apply keeps_bind; [by apply unbound_set|intros _].
    apply keeps_bind; [apply keeps_gets|intros deadline].
    apply keeps_bind; [apply keeps_gets|intros tmo'].
    destruct (timespec_passed _ _ _) as [passed tmo''].
    apply keeps_bind; [by apply unbound_set|intros _].
    apply keeps_when.
    apply keeps_bind; [by apply unbound_set|intros _].
    apply keeps_bind; [apply unbound_nbp_send|intros _].
    apply keeps_ret. }
  intros _. apply keeps_bind; [apply keeps_gets|intros tmo].
  apply keeps_bind; [by apply unbound_log|intros _].
  destruct (poll_rc c <=? 0); [apply keeps_ret|].
  apply keeps_bind; [apply keeps_when, unbound_nbp_read|intros _].
  apply keeps_bind; [apply keeps_when, unbound_handle_req|intros _].
  apply keeps_when, unbound_got_new_subscriber.
Qed.

(** X10.  The publisher is bound by the reset-complete callback and by
    nothing else: however many turns the loop runs and whatever arrives on
    the sockets meanwhile, as long as no fet-presence frame is waiting on
    the link or arrives on it, no endpoint is bound. *)
Theorem no_bind_without_presence (feed : list (arrival * cycle)) (w : world) :
  link_without_presence w →
  Forall (λ ac, no_presence (on_link ac.1)) feed →
  ∃ tr : list call,
    trace (outcome_world (main_loop_fed feed w)) = trace w ++ tr
    ∧ Forall binds_nothing tr
    ∧ binds tr = 0%nat.
Proof.
  intros Hw Hfeed.
  assert (keeps link_without_presence binds_nothing (main_loop_fed feed))
    as Hkeeps.
  { induction Hfeed as [|[a c] feed Ha _ IH]; simpl; [apply keeps_ret|].
    apply keeps_bind; [|intros _].
    - intros w0 Hw0. simpl. split; [by apply Forall_app|].
      exists []. by rewrite app_nil_r.
    - apply keeps_bind; [apply unbound_main_turn | intros _; exact IH]. }
  destruct (Hkeeps w Hw) as [_ (tr & Htr & Hq)].
  exists tr. split; [exact Htr|]. split; [exact Hq|].
  unfold binds. clear Htr.
  induction Hq as [|c tr Hc _ IH]; [done|].
  unfold binds_nothing in Hc.
  rewrite filter_cons_False; [exact IH | rewrite Hc; exact id].
Qed.

(** ** The publisher is bound once *)

Lemma binds_app (l1 l2 : list call) : binds (l1 ++ l2) = (binds l1 + binds l2)%nat.
Proof. unfold binds. by rewrite filter_app, length_app. Qed.

Lemma binds_queries (idx : list nat) : binds (fet_queries idx) = 0%nat.
Proof. by induction idx. Qed.

Lemma once_same {A : Type} (m : M A) :
  (∀ w, ∃ tr, trace (outcome_world (m w)) = trace w ++ tr
              ∧ cb_msg_fet_presence (nbp (outcome_world (m w)))
                = cb_msg_fet_presence (nbp w)
              ∧ binds tr = 0%nat) →
  once m.
Proof.
  intros Hm w. destruct (Hm w) as (tr & Htr & Hcb & Hb).
  exists tr. split; [done|]. by left.
Qed.

Lemma once_ret {A : Type} (a : A) : once (mret a : M A).
Proof. apply once_same. intros w. exists []. simpl. by rewrite app_nil_r. Qed.

Lemma once_halt {A : Type} (why : stop) : once (halt why : M A).
Proof. apply once_same. intros w. exists []. simpl. by rewrite app_nil_r. Qed.

Lemma once_gets {A : Type} (f : world → A) : once (gets f).
Proof. apply once_same. intros w. exists []. simpl. by rewrite app_nil_r. Qed.

Lemma once_bind {A B : Type} (m : M A) (f : A → M B) :
  once m → (∀ a, once (f a)) → once (m ≫= f).
Proof.
  intros Hm Hf w. rewrite outcome_world_bind.
  destruct (Hm w) as (tr & Htr & Hcase).
  destruct (m w) as [a w1|why w1]; simpl in *; [|by exists tr].
  destruct (Hf a w1) as (tr' & Htr' & Hcase').
  exists (tr ++ tr'). rewrite Htr', Htr, <- app_assoc. split; [done|].
  rewrite binds_app.
  destruct Hcase as [[Hcb Hb]|(Hcb & Hcb1 & Hb)],
           Hcase' as [[Hcb' Hb']|(Hcb' & Hcb1' & Hb')].
  - left. split; [congruence | lia].
  - right. split; [congruence|]. split; [done | lia].
  - right. split; [done|]. split; [congruence | lia].
  - congruence.
Qed.

Lemma once_set (f : world → world) :
  (∀ w, trace (f w) = trace w
        ∧ cb_msg_fet_presence (nbp (f w)) = cb_msg_fet_presence (nbp w)) →
  once (modify f).
Proof.
  intros Hf. apply once_same. intros w. destruct (Hf w) as [Htr Hcb].
  exists []. simpl. by rewrite Htr, app_nil_r.
Qed.

Lemma once_log (c : call) : is_bind c = false → once (modify (log_call c)).
Proof.
  intros Hc. apply once_same. intros w. exists [c]. simpl.
  split; [done|]. split; [done|]. unfold binds.
  rewrite filter_cons_False; [done | rewrite Hc; exact id].
Qed.

Lemma once_access {A : Type} (o : option A) : once (access o).
Proof. destruct o; [apply once_ret | apply once_halt]. Qed.

Lemma once_assert (b : bool) : once (assert b).
Proof. destruct b; [apply once_ret | apply once_halt]. Qed.

Lemma once_when (b : bool) (m : M unit) : once m → once (when b m).
Proof. destruct b; [done | intros _; apply once_ret]. Qed.

Lemma once_for_each {S : Type} (idx : list nat) (body : nat → S → M S) (s : S) :
  (∀ i s, once (body i s)) → once (for_each idx body s).
Proof.
  intros Hbody. revert s. induction idx as [|i idx IH]; intros s; simpl.
  - apply once_ret.
  - apply once_bind; [apply Hbody | apply IH].
Qed.

Lemma once_nbp_send (m : nbp_message_type) :
  session_keeps_callback → once (nbp_send m).
Proof.
  intros [Hsend _]. apply once_same. intros w. unfold nbp_send.
  specialize (Hsend (nbp w) m).
  destruct (nbp_send_impl (nbp w) m) as [ok d]. simpl in *.
  by exists [NbpSend m].
Qed.

Lemma once_nbp_control_fet (fet : Z) (connect : bool) :
  session_keeps_callback → once (nbp_control_fet fet connect).
Proof.
  intros [_ Hctl]. apply once_same. intros w. unfold nbp_control_fet.
  specialize (Hctl (nbp w) fet connect).
  destruct (nbp_control_fet_impl (nbp w) fet connect) as [ok d]. simpl in *.
  by eexists [_].
Qed.

Lemma once_zmq_recv_protobuf (s : socket) : once (zmq_recv_protobuf s).
Proof.
  apply once_same. intros w. unfold zmq_recv_protobuf.
  destruct (inbox w s) as [|[data|] rest]; simpl;
    first [ exists []; by rewrite app_nil_r | by eexists [_] ].
Qed.

Lemma once_zmq_msg_recv (s : socket) : once (zmq_msg_recv s).
Proof.
  apply once_same. intros w. unfold zmq_msg_recv.
  destruct (inbox w s) as [|[data|] rest]; simpl;
    first [ exists []; by rewrite app_nil_r | by eexists [_] ].
Qed.

Lemma once_send_snapshot : once send_snapshot.
Proof.
  apply once_same. intros w. rewrite send_snapshot_run.
  eexists. split; [reflexivity|]. split; [done|].
  by rewrite binds_app, binds_queries.
Qed.

Lemma once_handle_req (s : socket) :
  session_keeps_callback → once (handle_req s).
Proof.
  intros Hkeep. unfold handle_req, set_wire_item, zmq_send_protobuf.
  apply once_bind; [apply once_zmq_recv_protobuf|intros req].
  apply once_bind; [apply once_access|intros req'].
  apply once_bind.
  - apply once_for_each. intros i blk.
    apply once_bind; [apply once_access|intros item].
    apply once_bind; [by apply once_nbp_control_fet|intros ok].
    apply once_access.
  - intros blk. apply once_bind; [apply once_access|intros packed].
    by apply once_log.
Qed.

Lemma once_got_new_subscriber (s : socket) : once (got_new_subscriber s).
Proof.
  unfold got_new_subscriber.
  apply once_bind; [apply once_zmq_msg_recv|intros [data rc]].
  apply once_bind; [apply once_assert|intros _].
  case_bool_decide; [apply once_ret|].
  destruct data as [|b data]; [apply once_halt|].
  destruct (Byte.eqb b x00); [apply once_ret | apply once_send_snapshot].
Qed.

Lemma once_invoke (cb : option handler) (expected : handler) (m : M unit) :
  once m → once (invoke cb expected m).
Proof.
  intros Hm. unfold invoke. destruct cb as [h|]; [|apply once_ret].
  destruct h, expected; first [exact Hm | apply once_halt].
Qed.

(** The one step that moves the callback pointer. *)
Lemma once_presence (now : timespec) (fet_bitmask : Z) :
  session_keeps_callback → once (deliver now (FrameFetPresence fet_bitmask)).
Proof.
  intros [Hsend _] w. unfold deliver. steps.
  destruct (cb_msg_fet_presence (nbp w)) as [h|] eqn:Hcb;
    [|exists []; simpl; rewrite app_nil_r; by split; [|left]].
  destruct h; simpl invoke;
    try (exists []; simpl; rewrite app_nil_r; by split; [|left]).
  unfold reset_complete, request_periodic, nbp_send, fabdcfg_zmq_bind, assert.
  steps. cbn [nbp set_nbp set_ts_next_periodic_req log_call trace my_devid].
  specialize (Hsend (clear_cb_msg_fet_presence (nbp w)) NBPM_REQ_PERIODIC).
  destruct (nbp_send_impl (clear_cb_msg_fet_presence (nbp w))
                          NBPM_REQ_PERIODIC) as [sent d].
  simpl in Hsend.
  destruct (fabdcfg_zmq_bind_impl _ _ _ _); simpl; eexists [_; _; _];
    (split; [by rewrite <- !app_assoc|]); right; by repeat split.
Qed.

Lemma once_deliver (now : timespec) (f : nbp_frame) :
  session_keeps_callback → once (deliver now f).
Proof.
  intros Hkeep. destruct f; [| | |by apply once_presence]; unfold deliver.
  - apply once_bind; [apply once_gets|intros cb].
    apply once_invoke. by apply once_log.
  - apply once_bind; [by apply once_set|intros _].
    apply once_bind; [apply once_gets|intros cb].
    apply once_invoke. unfold msg_weather, applog, zmq_send_protobuf.
    apply once_bind; [by apply once_log|intros _]. by apply once_log.
  - apply once_bind; [by apply once_set|intros _].
    apply once_bind; [apply once_gets|intros cb].
    apply once_invoke. unfold msg_power_status, applog, zmq_send_protobuf.
    apply once_bind; [by apply once_log|intros _]. by apply once_log.
Qed.

Lemma once_nbp_read : session_keeps_callback → once nbp_read.
Proof.
  intros Hkeep. unfold nbp_read.
  apply once_bind; [by apply once_log|intros _].
  apply once_bind; [apply once_gets|intros frames].
  apply once_bind; [by apply once_set|intros _].
  induction frames as [|[now f] frames IH]; simpl; [apply once_ret|].
  apply once_bind; [by apply once_deliver | intros _; exact IH].
Qed.

Lemma once_main_turn (c : cycle) : session_keeps_callback → once (main_turn c).
Proof.
  intros Hkeep. unfold main_turn, before_poll, dispatch, request_periodic.
  apply once_bind.
  { apply once_bind; [apply once_gets|intros tmo].
    apply once_bind; [by apply once_set|intros _].
    apply once_bind; [apply once_gets|intros deadline].
    apply once_bind; [apply once_gets|intros tmo'].
    destruct (timespec_passed _ _ _) as [passed tmo''].
    apply once_bind; [by apply once_set|intros _].
    apply once_when.
    apply once_bind; [by apply once_set|intros _].
    apply once_bind; [by apply once_nbp_send|intros _].
    apply once_ret. }
  intros _. apply once_bind; [apply once_gets|intros tmo].
  apply once_bind; [by apply once_log|intros _].
  destruct (poll_rc c <=? 0); [apply once_ret|].
  apply once_bind; [by apply once_when, once_nbp_read|intros _].
  apply once_bind; [by apply once_when, once_handle_req|intros _].
  apply once_when, once_got_new_subscriber.
Qed.

(** X13.  With a session that leaves the callback pointer alone, the loop
    binds at most once, however many turns it runs and whatever arrives on
    the link and on the sockets: a bind happens only in a run that starts
    with [reset_complete] registered and ends with the pointer null, and
    a run that starts with the pointer null binds nothing. *)
Theorem loop_binds_at_most_once (feed : list (arrival * cycle)) (w : world) :
  session_keeps_callback →
  ∃ tr : list call,
    trace (outcome_world (main_loop_fed feed w)) = trace w ++ tr
    ∧ (binds tr ≤ 1)%nat
    ∧ (binds tr = 1%nat →
       cb_msg_fet_presence (nbp w) = Some reset_complete_fn
       ∧ cb_msg_fet_presence (nbp (outcome_world (main_loop_fed feed w)))
         = None)
    ∧ (cb_msg_fet_presence (nbp w) = None → binds tr = 0%nat).
Proof.
  intros Hkeep.
  assert (once (main_loop_fed feed)) as Honce.
  { induction feed as [|[a c] feed IH]; simpl; [apply once_ret|].
    apply once_bind; [by apply once_set|intros _].
    apply once_bind; [by apply once_main_turn | intros _; exact IH]. }
  destruct (Honce w) as (tr & Htr & [[Hcb Hb]|(Hcb & Hcb' & Hb)]);
    exists tr; (split; [exact Htr|]); (split; [lia|]); split;
    first [lia | congruence | done].
Qed.

End Further.

(** * The bridge on the platform [Sim] *)

Import Sim.

Lemma control_fet_keeps_callback (d : Sim.dev) (fet : Z) (connect : bool) :
  cb_msg_fet_presence (Sim.control_fet d fet connect).2 = cb_msg_fet_presence d.
Proof.
  unfold Sim.control_fet. destruct (bool_decide _); reflexivity.
Defined.

(** The scenario of the specification for the control channel: wire 2 is
    set, wire 5 is stuck, and the reply is [true; false]. *)
Example control_request_scenario :
  published (trace (outcome_world (handle_req my_zmq_ctl Sim.request_pending)))
  = []
  ∧ last (trace (outcome_world (handle_req my_zmq_ctl Sim.request_pending)))
    = Some (ZmqSendProtobuf my_zmq_ctl
              (pb_request_reply (PbRequestReply.mk [true; false]))).
Proof. split; reflexivity. Qed.

(** The scenario of the specification for the weather callback. *)
Example weather_scenario :
  published (trace (outcome_world (msg_weather 1000 2150 455 Sim.ready)))
  = [weather_only 2150 455]
  ∧ weather_log 2150 455
    = Applog LOG_INFO
        "Temperature %3d.%02d C (%4d.%03d F)    Humidity: %d.%d%%"
        [LInt 21; LInt 50; LInt 70; LInt 700; LInt 45; LInt 5].
Proof. split; reflexivity. Qed.

(** The snapshot of a device on which wires 0 and 2 are known. *)
Example snapshot_scenario :
  published
    (trace (outcome_world
              (got_new_subscriber my_zmq_publisher Sim.subscriber_pending)))
  = [PbEvent.mk None None [PbSetHVACWireRequest.mk 0 true;
                           PbSetHVACWireRequest.mk 2 false]].
Proof. reflexivity. Qed.

Lemma handle_req_reply_witness :
  ∃ (w' : world) (results : list bool),
    handle_req my_zmq_ctl Sim.request_pending = Done tt w'
    ∧ length results = 2%nat.
Proof.
  destruct (handle_req_reply my_zmq_ctl Sim.request_pending Sim.request_bytes
              [] Sim.request eq_refl eq_refl)
    as (w' & results & Hrun & Hlen & _).
  exists w', results. split; [exact Hrun | exact Hlen].
Defined.

Lemma snapshot_wire_changes_witness :
  ∃ (w' : world) (ev : PbEvent.t),
    got_new_subscriber my_zmq_publisher Sim.subscriber_pending = Done tt w'
    ∧ StronglySorted Z.lt
        (PbSetHVACWireRequest.wire <$> PbEvent.wire_change ev).
Proof.
  destruct (snapshot_wire_changes my_zmq_publisher Sim.subscriber_pending
              x01 [] [] eq_refl ltac:(discriminate))
    as (w' & ev & Hrun & _ & Hsorted & _).
  exists w', ev. split; [exact Hrun | exact Hsorted].
Defined.

Lemma snapshot_reports_latest_weather_witness :
  ∃ (w1 w2 : world) (ev : PbEvent.t),
    deliver_all (weather_frames Sim.two_readings) Sim.subscriber_pending
    = Done tt w1
    ∧ got_new_subscriber my_zmq_publisher w1 = Done tt w2
    ∧ PbEvent.weather ev = Some (PbWeather.mk true 2150 true 455).
Proof.
  destruct (snapshot_reports_latest_weather Sim.subscriber_pending
              Sim.two_readings my_zmq_publisher x01 [] []
              eq_refl eq_refl ltac:(discriminate))
    as (w1 & w2 & ev & Hrun & Hsub & _ & _ & Hlast & _).
  exists w1, w2, ev. split; [exact Hrun|]. split; [exact Hsub|].
  exact (proj2 (Hlast 2000 2150 455 eq_refl)).
Defined.

Lemma reset_complete_fires_once_witness :
  ∃ (w1 : world) (bound : bool),
    deliver 1000 (FrameFetPresence 3) Sim.ready
    = (if bound then Done tt w1 else Stop Aborted w1)
    ∧ cb_msg_fet_presence (nbp w1) = None
    ∧ ts_next_periodic_req w1 = 31000.
Proof.
  destruct (reset_complete_fires_once Sim.ready 1000 3 eq_refl
              (conj (λ d m, eq_refl) control_fet_keeps_callback))
    as (w1 & bound & Hrun & _ & _ & Hcb & Hts & _).
  exists w1, bound. split; [exact Hrun|]. split; [exact Hcb | exact Hts].
Defined.

Lemma periodic_refresh_before_poll_witness :
  ∃ (w0 : world) (after : list call),
    before_poll Sim.late_turn Sim.running = Done tt w0
    ∧ trace w0 = trace Sim.running ++ [NbpSend NBPM_REQ_PERIODIC]
    ∧ ts_next_periodic_req w0 = 70000.
Proof.
  destruct (periodic_refresh_before_poll Sim.late_turn Sim.running true (-1)
              eq_refl)
    as (w0 & after & Hrun & Htr & Hts & _).
  exists w0, after. split; [exact Hrun|]. split; [exact Htr | exact Hts].
Defined.

Lemma subscription_boundaries_witness :
  ∃ w' : world,
    got_new_subscriber my_zmq_publisher
      (set_inbox my_zmq_publisher [Some [x01]] Sim.ready)
    = Done tt w'
    ∧ published (trace w') = [PbEvent.mk None None []].
Proof.
  destruct (proj2 (subscription_boundaries my_zmq_publisher
                     (set_inbox my_zmq_publisher [Some [x01]] Sim.ready)
                     [x01] [] eq_refl)
                  eq_refl eq_refl eq_refl)
    as (w' & Hrun & _ & Hpub).
  - intros n Hn. do 12 (destruct n as [|n]; [reflexivity|]). simpl in Hn. lia.
  - exists w'. split; [exact Hrun | exact Hpub].
Defined.

Lemma idle_poll_next_turn_witness :
  ∃ w' : world,
    main_turn Sim.idle_turn Sim.running = Done tt w'
    ∧ main_loop [Sim.idle_turn; Sim.late_turn] Sim.running
      = main_loop [Sim.late_turn] w'.
Proof.
  destruct (idle_poll_next_turn Sim.idle_turn Sim.running [Sim.late_turn]
              ltac:(simpl; lia))
    as (w' & Hrun & _ & _ & _ & _ & Hloop).
  exists w'. split; [exact Hrun | exact Hloop].
Defined.

(** Against C5 as stated.  The turn in which the reset is confirmed: the
    deadline is cleared and has not passed, and yet the turn sends a
    periodic refresh, from [reset_complete]. *)
Lemma refresh_sent_though_deadline_not_passed :
  (timespec_passed (ts_next_periodic_req Sim.reset_pending)
                   (clock Sim.link_turn)
                   (timespec_clear (ts_timeout Sim.reset_pending))).1 = false
  ∧ refreshes (trace Sim.reset_pending) = 0%nat
  ∧ refreshes (trace (outcome_world (main_turn Sim.link_turn Sim.reset_pending)))
    = 1%nat.
Proof. repeat split; reflexivity. Qed.

(** Against C8 as stated.  After the weather handler has run on a device
    that holds no weather reading, the device still holds none. *)
Lemma msg_weather_leaves_device_state :
  has_weather (nbp Sim.ready) = false
  ∧ ¬ holds_weather
        (nbp (outcome_world (msg_weather 1000 2150 455 Sim.ready))) 2150 455.
Proof. split; [reflexivity|]. intros [Hw _]. discriminate Hw. Qed.

(** Against C7 as stated.  After the power-status handler has run on a
    device that holds no power reading, the device still holds none. *)
Lemma msg_power_status_leaves_device_state :
  has_powerinfo (nbp Sim.ready) = false
  ∧ ¬ holds_power
        (nbp (outcome_world
                (msg_power_status 1000 1 0x40 0 0 0 0 500 3300 3900 0 0
                                  Sim.ready)))
        0x40 3900.
Proof. split; [reflexivity|]. intros [Hp _]. discriminate Hp. Qed.

(** ** The rest of main.c on [Sim] *)

(** Setup, then the reset reported twice: the publisher is bound once. *)
Example reset_twice_scenario :
  binds (trace (outcome_world (main_loop_fed Sim.reset_twice_feed Sim.ready)))
  = 2%nat
  ∧ binds (trace Sim.ready) = 1%nat.
Proof. split; reflexivity. Qed.

Lemma weather_log_exact_witness :
  Z.quot (2150 * 90) 5 + 32000 = 18 * 2150 + 32000.
Proof.
  exact (proj1 (proj2 (proj2 (weather_log_exact 1000 2150 455 Sim.ready
                                ltac:(lia) ltac:(lia))))).
Defined.

Lemma got_new_subscriber_recv_failure_witness :
  ∃ w' : world,
    got_new_subscriber my_zmq_publisher Sim.recv_failing = Stop Aborted w'
    ∧ trace w' = trace Sim.recv_failing ++ [ZmqMsgRecv my_zmq_publisher].
Proof.
  destruct (got_new_subscriber_recv_failure my_zmq_publisher Sim.recv_failing
              [] eq_refl)
    as (w' & Hrun & Htr & _).
  exists w'. split; [exact Hrun | exact Htr].
Defined.

Lemma snapshot_ignores_topic_witness :
  ∃ (w1' w2' : world) (ev : PbEvent.t),
    got_new_subscriber my_zmq_publisher Sim.subscriber_pending = Done tt w1'
    ∧ got_new_subscriber my_zmq_publisher Sim.topic_pending = Done tt w2'
    ∧ published (trace w1') = published (trace Sim.subscriber_pending) ++ [ev]
    ∧ published (trace w2') = published (trace Sim.topic_pending) ++ [ev].
Proof.
  exact (snapshot_ignores_topic my_zmq_publisher my_zmq_publisher
           Sim.subscriber_pending Sim.topic_pending
           x01 x01 [] ["119"; "120"]%byte [] []
           eq_refl eq_refl ltac:(discriminate) ltac:(discriminate) eq_refl).
Defined.

Lemma got_new_subscriber_reads_only_witness :
  ∃ (w' : world) (tr : list call),
    got_new_subscriber my_zmq_publisher Sim.subscriber_pending = Done tt w'
    ∧ nbp w' = nbp Sim.subscriber_pending.
Proof.
  destruct (got_new_subscriber_reads_only my_zmq_publisher
              Sim.subscriber_pending [x01] [] eq_refl)
    as (w' & tr & Hrun & Hnbp & _).
  exists w', tr. split; [exact Hrun | exact Hnbp].
Defined.


Lemma handle_req_undecodable_witness :
  ∃ (why : stop) (w' : world),
    handle_req my_zmq_ctl Sim.garbled_pending = Stop why w'
    ∧ trace w' = trace Sim.garbled_pending ++ [ZmqRecvProtobuf my_zmq_ctl].
Proof.
  destruct (handle_req_undecodable my_zmq_ctl Sim.garbled_pending
              Sim.garbled_bytes [] eq_refl eq_refl)
    as (why & w' & Hrun & Htr & _).
  exists why, w'. split; [exact Hrun | exact Htr].
Defined.

Lemma no_bind_without_presence_witness :
  ∃ tr : list call,
    trace (outcome_world (main_loop_fed Sim.waiting_feed Sim.telemetry_pending))
    = trace Sim.telemetry_pending ++ tr
    ∧ binds tr = 0%nat.
Proof.
  destruct (no_bind_without_presence Sim.waiting_feed Sim.telemetry_pending)
    as (tr & Htr & _ & Hb).
  - unfold link_without_presence, no_presence. simpl.
    repeat constructor.
  - repeat constructor.
  - exists tr. split; [exact Htr | exact Hb].
Defined.


Lemma dispatch_needs_pollin_witness :
  dispatch Sim.flagged_turn Sim.busy = Done tt Sim.busy.
Proof.
  exact (dispatch_needs_pollin Sim.flagged_turn Sim.busy
           eq_refl eq_refl eq_refl).
Defined.

Lemma loop_binds_at_most_once_witness :
  ∃ tr : list call,
    trace (outcome_world (main_loop_fed Sim.reset_twice_feed Sim.ready))
    = trace Sim.ready ++ tr
    ∧ (binds tr ≤ 1)%nat.
Proof.
  destruct (loop_binds_at_most_once Sim.reset_twice_feed Sim.ready
              (conj (λ d m, eq_refl) control_fet_keeps_callback))
    as (tr & Htr & Hb & _).
  exists tr. split; [exact Htr | exact Hb].
Defined.
